(** * kepler.gl export utilities: a shallow embedding of
    [src/utils/export-utils.js] and the properties of its export pipeline.

    Conventions of the embedding.
    - A JavaScript number is an exact rational ([Q]); the comparisons and the
      division of the source are the rational ones.
    - A JavaScript string is a [string]; its characters are 8-bit code units.
    - A call that can throw returns a [completion]: [Return v] or [Throw e].
    - A property read on a plain object goes through [Object.prototype], and
      the [Blob] constructor normalises the type it is given.
    - The browser (object-URL store, document body, saved files) is an explicit
      [World] threaded through the effectful functions. *)

From Stdlib Require Import QArith Qround Ascii String.
From Stdlib.Strings Require Import Byte.
From stdpp Require Import gmap strings list fin_maps.

Set Default Proof Using "Type".

(** ** Completions: normal return or a thrown error *)

Inductive error : Type :=
| TypeError              (* property access on undefined *)
| InvalidCharacterError  (* atob on a string that is not base64 *)
| DOMError.              (* a failing platform call *)

Inductive completion (A : Type) : Type :=
| Return (a : A)
| Throw (e : error).
Arguments Return {A} a.
Arguments Throw {A} e.

(** [a || b] on values that are an object or [undefined]. *)
Definition or_else {A : Type} (a b : option A) : option A :=
  match a with
  | Some x => Some x
  | None => b
  end.

(** ** Geometry calculator *)

Module Geometry.
Local Open Scope Q_scope.

(** The [{width, height}] object returned by a preset's [getSize]. *)
Record Size : Type := mkSize { width : Q; height : Q }.

(** An entry of [EXPORT_IMG_RATIO_OPTIONS]. *)
Record RatioOption : Type := mkRatio {
  ratio_id : string;
  ratio_getSize : Q -> Q -> Size
}.

(** An entry of [EXPORT_IMG_RESOLUTION_OPTIONS]; [scale] may be missing on
    an object, hence the option. *)
Record ResolutionOption : Type := mkResolution {
  resolution_id : string;
  resolution_scale : option Q;
  resolution_getSize : Q -> Q -> Size
}.

(** The object returned by [calculateExportImageSize]; [scale = None] is
    JavaScript's [undefined]. *)
Record ExportImageSize : Type := mkExportImageSize {
  scale : option Q;
  imageW : Q;
  imageH : Q
}.

(** [x > y] on numbers. *)
Definition Qgtb (x y : Q) : bool := negb (Qle_bool x y).

(** [getScaleFromImageSize(imageW, imageH, mapW, mapH)] *)
Definition getScaleFromImageSize (imageW imageH mapW mapH : Q) : Q :=
  if existsb (fun d => Qle_bool d 0) [imageW; imageH; mapW; mapH] then 1
  else
    let base := if Qgtb (imageW / imageH) 1 then imageW else imageH in
    let mapBase := if Qgtb (imageW / imageH) 1 then mapW else mapH in
    let scale := base / mapBase in
    scale.

Section Presets.
(** The preset tables and identifiers come from [constants/default-settings],
    which the export module imports; they are parameters here. *)
Variable EXPORT_IMG_RESOLUTION_OPTIONS : list ResolutionOption.
Variable EXPORT_IMG_RATIO_OPTIONS : list RatioOption.
Variable ONE_X : string.          (* RESOLUTIONS.ONE_X *)
Variable FOUR_BY_THREE : string.  (* EXPORT_IMG_RATIOS.FOUR_BY_THREE *)
Variable CUSTOM : string.         (* EXPORT_IMG_RATIOS.CUSTOM *)

Definition defaultResolution : option ResolutionOption :=
  find (fun op => String.eqb (resolution_id op) ONE_X)
       EXPORT_IMG_RESOLUTION_OPTIONS.

Definition defaultRatio : option RatioOption :=
  find (fun op => String.eqb (ratio_id op) FOUR_BY_THREE)
       EXPORT_IMG_RATIO_OPTIONS.

(** [EXPORT_IMG_RATIO_OPTIONS.find(op => op.id === ratio) || defaultRatio] *)
Definition resolveRatio (ratio : string) : option RatioOption :=
  or_else (find (fun op => String.eqb (ratio_id op) ratio)
                EXPORT_IMG_RATIO_OPTIONS)
          defaultRatio.

(** [EXPORT_IMG_RESOLUTION_OPTIONS.find(op => op.id === resolution)
     || defaultResolution] *)
Definition resolveResolution (resolution : string) : option ResolutionOption :=
  or_else (find (fun op => String.eqb (resolution_id op) resolution)
                EXPORT_IMG_RESOLUTION_OPTIONS)
          defaultResolution.

(** [calculateExportImageSize({mapW, mapH, ratio, resolution})];
    [Return None] is the [null] result.  A preset that resolves to
    [undefined] makes the [getSize] call throw. *)
Definition calculateExportImageSize (mapW mapH : Q) (ratio resolution : string)
  : completion (option ExportImageSize) :=
  if Qle_bool mapW 0 || Qle_bool mapH 0 then Return None
  else
    let ratioItem := resolveRatio ratio in
    let resolutionItem := resolveResolution resolution in
    match resolutionItem with
    | None => Throw TypeError
    | Some resolutionItem =>
        let scaled := resolution_getSize resolutionItem mapW mapH in
        match ratioItem with
        | None => Throw TypeError
        | Some ratioItem =>
            let img := ratio_getSize ratioItem (width scaled) (height scaled) in
            let scale :=
              if String.eqb (ratio_id ratioItem) CUSTOM then None
              else resolution_scale resolutionItem in
            Return (Some {| scale := scale;
                            imageW := width img;
                            imageH := height img |})
        end
    end.


(** Every resolution preset carries its scale factor. *)
Definition scales_present : Prop :=
  Forall (fun op => is_Some (resolution_scale op))
         EXPORT_IMG_RESOLUTION_OPTIONS.
End Presets.

(** Modelled from the spec: the preset tables of [constants/default-settings]
    (resolution presets 1x = identity and 2x = doubled with their scale
    factors; ratio presets 4:3 with a fixed aspect ratio and "custom", which
    passes the dimensions through) and the identifiers that name them. *)
Definition RESOLUTION_OPTIONS_model : list ResolutionOption :=
  [ mkResolution "ONE_X" (Some 1) (fun w h => mkSize w h);
    mkResolution "TWO_X" (Some 2) (fun w h => mkSize (2 * w) (2 * h)) ].

(** Modelled from the spec: the ratio presets of [constants/default-settings]
    (see [RESOLUTION_OPTIONS_model]). *)
Definition RATIO_OPTIONS_model : list RatioOption :=
  [ mkRatio "FOUR_BY_THREE" (fun w h => mkSize w (w * (3 # 4)));
    mkRatio "CUSTOM" (fun w h => mkSize w h) ].



End Geometry.

(** ** Blobs *)

(** One element of the array given to the [Blob] constructor. *)
Inductive BlobPart : Type :=
| StringPart (s : string)
| BufferPart (bytes : list byte).

(** [new Blob(parts, {type})], kept as the constructor's arguments. *)
Record Blob : Type := mkBlob {
  blobParts : list BlobPart;
  blobType : string
}.

(** A character in the range U+0020 to U+007E. *)
Definition is_printable (c : ascii) : bool :=
  let n := N_of_ascii c in ((32 <=? n) && (n <=? 126))%N.

(** An upper-case ASCII letter. *)
Definition is_upper (c : ascii) : bool :=
  let n := N_of_ascii c in ((65 <=? n) && (n <=? 90))%N.

(** ASCII lower case of a character. *)
Definition ascii_lower (c : ascii) : ascii :=
  if is_upper c then ascii_of_N (N_of_ascii c + 32) else c.

(** The type a blob gets from the [type] option of its constructor: the empty
    string when the option holds a character outside U+0020 to U+007E, else
    the option in ASCII lower case. *)
Definition normalize_type (type : string) : string :=
  let chars := list_ascii_of_string type in
  if forallb is_printable chars
  then string_of_list_ascii (ascii_lower <$> chars)
  else "".

(** A type made of printable characters without upper-case letters. *)
Definition plain_type (type : string) : bool :=
  forallb (fun c => is_printable c && negb (is_upper c))
          (list_ascii_of_string type).

(** The blob that the call [new Blob(parts, {type})] constructs. *)
Definition new_Blob (parts : list BlobPart) (type : string) : Blob :=
  mkBlob parts (normalize_type type).

(** ** Data URI decoder *)

Module DataURI.

(** Does the character occur in the string? *)
Fixpoint contains (c : ascii) (s : string) : bool :=
  match s with
  | EmptyString => false
  | String c' s' => Ascii.eqb c' c || contains c s'
  end.

(** [s.split(sep)] for a one-character separator: the pieces between the
    occurrences of [sep]; the result is never empty. *)
Fixpoint split (sep : ascii) (s : string) : list string :=
  match s with
  | EmptyString => [EmptyString]
  | String c s' =>
      if Ascii.eqb c sep then EmptyString :: split sep s'
      else match split sep s' with
           | [] => [String c EmptyString]
           | piece :: pieces => String c piece :: pieces
           end
  end.

(** *** Base64, as the platform's [atob] decodes it *)

(** Six bits, most significant first. *)
Inductive sextet : Type := Sextet (b5 b4 b3 b2 b1 b0 : bool).

Definition sextet_to_N (s : sextet) : N :=
  let 'Sextet b5 b4 b3 b2 b1 b0 := s in
  N_of_digits [b0; b1; b2; b3; b4; b5].

Definition sextet_of_N (n : N) : sextet :=
  Sextet (N.testbit n 5) (N.testbit n 4) (N.testbit n 3)
         (N.testbit n 2) (N.testbit n 1) (N.testbit n 0).

(** The base64 alphabet [A-Z a-z 0-9 + /] by index. *)
Definition alphabet_char (i : N) : ascii :=
  ascii_of_N
    (if i <? 26 then i + 65
     else if i <? 52 then i + 71
     else if i <? 62 then i - 4
     else if i =? 62 then 43
     else 47)%N.

(** The index of a character in the base64 alphabet. *)
Definition alphabet_index (c : ascii) : option N :=
  let n := N_of_ascii c in
  (if (65 <=? n) && (n <=? 90) then Some (n - 65)
   else if (97 <=? n) && (n <=? 122) then Some (n - 71)
   else if (48 <=? n) && (n <=? 57) then Some (n + 4)
   else if n =? 43 then Some 62
   else if n =? 47 then Some 63
   else None)%N.

Definition sextet_char (s : sextet) : ascii := alphabet_char (sextet_to_N s).

Definition char_sextet (c : ascii) : option sextet :=
  sextet_of_N <$> alphabet_index c.

(** Base64 of a byte string (RFC 4648): every three bytes give four
    sextets; one or two remaining bytes give two or three, filled with zero
    bits. *)
Fixpoint encode_sextets (l : list ascii) : list sextet :=
  match l with
  | [] => []
  | [Ascii a0 a1 a2 a3 a4 a5 a6 a7] =>
      [ Sextet a7 a6 a5 a4 a3 a2; Sextet a1 a0 false false false false ]
  | [Ascii a0 a1 a2 a3 a4 a5 a6 a7; Ascii b0 b1 b2 b3 b4 b5 b6 b7] =>
      [ Sextet a7 a6 a5 a4 a3 a2; Sextet a1 a0 b7 b6 b5 b4;
        Sextet b3 b2 b1 b0 false false ]
  | Ascii a0 a1 a2 a3 a4 a5 a6 a7 :: Ascii b0 b1 b2 b3 b4 b5 b6 b7
      :: Ascii c0 c1 c2 c3 c4 c5 c6 c7 :: rest =>
      Sextet a7 a6 a5 a4 a3 a2 :: Sextet a1 a0 b7 b6 b5 b4
      :: Sextet b3 b2 b1 b0 c7 c6 :: Sextet c5 c4 c3 c2 c1 c0
      :: encode_sextets rest
  end.

(** The [=] signs that complete the last group of four characters. *)
Fixpoint padding (l : list ascii) : list ascii :=
  match l with
  | [] => []
  | [_] => ["="%char; "="%char]
  | [_; _] => ["="%char]
  | _ :: _ :: _ :: rest => padding rest
  end.

(** The padded base64 text, the encoder that builds the payload of a data
    URI. *)
Definition base64_chars (l : list ascii) : list ascii :=
  (sextet_char <$> encode_sextets l) ++ padding l.

(** [base64(B)]: the base64 text of a byte sequence. *)
Definition base64 (B : list byte) : string :=
  string_of_list_ascii (base64_chars (ascii_of_byte <$> B)).

(** ASCII whitespace: tab, line feed, form feed, carriage return, space. *)
Definition is_ascii_whitespace (c : ascii) : bool :=
  let n := N_of_ascii c in
  ((n =? 9) || (n =? 10) || (n =? 12) || (n =? 13) || (n =? 32))%N.

(** Remove one or two trailing [=] when the length is a multiple of four. *)
Definition strip_padding (data : list ascii) : list ascii :=
  if (length data mod 4 =? 0)%nat then
    match rev data with
    | c1 :: r1 =>
        if Ascii.eqb c1 "=" then
          match r1 with
          | c2 :: r2 => if Ascii.eqb c2 "=" then rev r2 else rev r1
          | [] => rev r1
          end
        else data
    | [] => data
    end
  else data.

(** Six bits are appended per character; every 24 bits give three bytes.
    Twelve remaining bits give one byte (the last four are dropped),
    eighteen give two (the last two are dropped). *)
Fixpoint decode_sextets (l : list sextet) : list ascii :=
  match l with
  | Sextet a7 a6 a5 a4 a3 a2 :: Sextet a1 a0 b7 b6 b5 b4
      :: Sextet b3 b2 b1 b0 c7 c6 :: Sextet c5 c4 c3 c2 c1 c0 :: rest =>
      Ascii a0 a1 a2 a3 a4 a5 a6 a7 :: Ascii b0 b1 b2 b3 b4 b5 b6 b7
      :: Ascii c0 c1 c2 c3 c4 c5 c6 c7 :: decode_sextets rest
  | [Sextet a7 a6 a5 a4 a3 a2; Sextet a1 a0 b7 b6 b5 b4;
     Sextet b3 b2 b1 b0 _ _] =>
      [Ascii a0 a1 a2 a3 a4 a5 a6 a7; Ascii b0 b1 b2 b3 b4 b5 b6 b7]
  | [Sextet a7 a6 a5 a4 a3 a2; Sextet a1 a0 _ _ _ _] =>
      [Ascii a0 a1 a2 a3 a4 a5 a6 a7]
  | _ => []
  end.

(** [atob(data)], the platform's forgiving base64 decoder; [None] is the
    [InvalidCharacterError] it throws.  The result is a binary string: one
    character per decoded byte. *)
Definition atob (data : string) : option string :=
  let data := List.filter (fun c => negb (is_ascii_whitespace c))
                          (list_ascii_of_string data) in
  let data := strip_padding data in
  if (length data mod 4 =? 1)%nat then None
  else
    sextets ← mapM char_sextet data;
    Some (string_of_list_ascii (decode_sextets sextets)).

(** *** The decoder *)

(** [ToString] of an array element that may be [undefined]. *)
Definition to_string (v : option string) : string := default "undefined" v.

(** [binary.charCodeAt(i)]; out of range it is NaN, which a typed array
    stores as 0. *)
Definition charCodeAt (binary : list ascii) (i : nat) : N :=
  match binary !! i with
  | Some c => N_of_ascii c
  | None => 0%N
  end.

(** The conversion of a number stored into a [Uint8Array]: its low 8 bits. *)
Definition to_uint8 (n : N) : byte := byte_of_ascii (ascii_of_N n).

(** [for (let i = ...; i < binary.length; i++) ia[i] = binary.charCodeAt(i)],
    with [fuel] the number of iterations left. *)
Fixpoint fill_from (binary : list ascii) (fuel i : nat) (ia : list byte)
  : list byte :=
  match fuel with
  | O => ia
  | S fuel' =>
      fill_from binary fuel' (S i) (<[i := to_uint8 (charCodeAt binary i)]> ia)
  end.

(** [dataURItoBlob(dataURI)] *)
Definition dataURItoBlob (dataURI : string) : completion Blob :=
  match atob (to_string (split "," dataURI !! 1%nat)) with
  | None => Throw InvalidCharacterError
  | Some binary =>
      (* separate out the mime component *)
      match split "," dataURI !! 0%nat with
      | None => Throw TypeError
      | Some header =>
          match split ":" header !! 1%nat with
          | None => Throw TypeError
          | Some rest =>
              let mimeString := split ";" rest !! 0%nat in
              (* write the bytes of the string to an ArrayBuffer *)
              let binary := list_ascii_of_string binary in
              let ab := replicate (length binary) "000"%byte in
              let ia := fill_from binary (length binary) 0 ab in
              Return (new_Blob [BufferPart ia] (default "" mimeString))
          end
      end
  end.

End DataURI.

(** ** The browser: object URLs, the document and the delivered files *)

Module Browser.

(** The platform calls made by the export module. *)
Inductive DomOp : Type :=
| CreateObjectURL | CreateElement | SetAttribute
| AppendChild | Click | RemoveChild | RevokeObjectURL.

(** The state of the browser.  [faults] tells which platform calls throw. *)
Record World : Type := mkWorld {
  object_urls : gmap string Blob;          (* live object URLs *)
  elements : gmap nat (gmap string string); (* created elements: attributes *)
  body : list nat;                         (* children of document.body *)
  downloads : list (string * Blob);        (* files saved: name and content *)
  faults : DomOp -> bool
}.

Definition with_object_urls (f : gmap string Blob -> gmap string Blob)
    (w : World) : World :=
  mkWorld (f (object_urls w)) (elements w) (body w) (downloads w) (faults w).

Definition with_elements
    (f : gmap nat (gmap string string) -> gmap nat (gmap string string))
    (w : World) : World :=
  mkWorld (object_urls w) (f (elements w)) (body w) (downloads w) (faults w).

Definition with_body (f : list nat -> list nat) (w : World) : World :=
  mkWorld (object_urls w) (elements w) (f (body w)) (downloads w) (faults w).

Definition with_downloads
    (f : list (string * Blob) -> list (string * Blob)) (w : World) : World :=
  mkWorld (object_urls w) (elements w) (body w) (f (downloads w)) (faults w).

(** Effectful computations: a state monad over [World] with exceptions. *)
Definition M (A : Type) : Type := World -> completion A * World.

#[global] Instance M_ret : MRet M := fun A (a : A) w => (Return a, w).

#[global] Instance M_bind : MBind M := fun A B (f : A -> M B) (m : M A) w =>
  match m w with
  | (Return a, w') => f a w'
  | (Throw e, w') => (Throw e, w')
  end.

(** A platform call: throws when the world says so, else runs. *)
Definition platform {A : Type} (op : DomOp) (run : World -> A * World) : M A :=
  fun w => if faults w op then (Throw DOMError, w)
           else let (a, w') := run w in (Return a, w').

(** [URL.createObjectURL(blob)]: a URL not in use, now naming the blob. *)
Definition createObjectURL (blob : Blob) : M string :=
  platform CreateObjectURL (fun w =>
    let url := fresh (dom (object_urls w)) in
    (url, with_object_urls (insert url blob) w)).

(** [URL.revokeObjectURL(url)] *)
Definition revokeObjectURL (url : string) : M unit :=
  platform RevokeObjectURL (fun w => (tt, with_object_urls (delete url) w)).

(** [document.createElement(tag)]: a new element without attributes. *)
Definition createElement (tag : string) : M nat :=
  platform CreateElement (fun w =>
    let el := fresh (dom (elements w)) in
    (el, with_elements (insert el ∅) w)).

(** [el.setAttribute(name, value)] *)
Definition setAttribute (el : nat) (name value : string) : M unit :=
  platform SetAttribute (fun w =>
    (tt, with_elements (alter (insert name value) el) w)).

(** [document.body.appendChild(el)] *)
Definition appendChild (el : nat) : M unit :=
  platform AppendChild (fun w => (tt, with_body (fun b => b ++ [el]) w)).

(** [document.body.removeChild(el)]; throws when [el] is not a child. *)
Definition removeChild (el : nat) : M unit :=
  fun w =>
    if bool_decide (el ∈ body w) then
      platform RemoveChild
        (fun w =>
           (tt, with_body (List.filter (fun x => negb (Nat.eqb x el))) w))
        w
    else (Throw DOMError, w).

(** [el.click()] on an anchor: with a [download] attribute and an [href] that
    is a live object URL, the blob is saved under the given name. *)
Definition click (el : nat) : M unit :=
  platform Click (fun w =>
    match elements w !! el with
    | Some attrs =>
        match attrs !! "href", attrs !! "download" with
        | Some url, Some filename =>
            match object_urls w !! url with
            | Some blob =>
                (tt, with_downloads (fun d => d ++ [(filename, blob)]) w)
            | None => (tt, w)
            end
        | _, _ => (tt, w)
        end
    | None => (tt, w)
    end).

(** [arr.forEach(f)] for an effectful [f]. *)
Fixpoint forEach {A : Type} (f : A -> M unit) (arr : list A) : M unit :=
  match arr with
  | [] => mret tt
  | x :: arr' => f x;; forEach f arr'
  end.

(** [downloadFile(fileBlob, filename)] *)
Definition downloadFile (fileBlob : Blob) (filename : string) : M unit :=
  url ← createObjectURL fileBlob;
  link ← createElement "a";
  setAttribute link "href" url;;
  setAttribute link "download" filename;;
  appendChild link;;
  click link;;
  removeChild link;;
  revokeObjectURL url.

End Browser.

(** ** Exporters *)

Module Exporters.
Import Browser.

(** Default file names *)
Definition DEFAULT_IMAGE_NAME : string := "kepler-gl.png".
Definition DEFAULT_HTML_NAME : string := "kepler.gl.html".
Definition DEFAULT_JSON_NAME : string := "keplergl.json".
Definition DEFAULT_DATA_NAME : string := "kepler-gl".

(** An access-token option of the request: a string, [null] or [undefined]. *)
Inductive Token : Type :=
| TokenUndefined
| TokenNull
| TokenString (s : string).

(** JavaScript truthiness on such a value. *)
Definition truthy (t : Token) : bool :=
  match t with
  | TokenString s => negb (String.eqb s "")
  | TokenNull | TokenUndefined => false
  end.

(** [a !== b] *)
Definition strict_neq (a b : Token) : bool :=
  match a, b with
  | TokenUndefined, TokenUndefined => false
  | TokenNull, TokenNull => false
  | TokenString s, TokenString t => negb (String.eqb s t)
  | _, _ => true
  end.

(** [(userMapboxToken || '') !== '' ? userMapboxToken
     : exportMapboxAccessToken] *)
Definition mapboxApiAccessToken
    (userMapboxToken exportMapboxAccessToken : Token) : Token :=
  if strict_neq (if truthy userMapboxToken then userMapboxToken
                 else TokenString "")
                (TokenString "")
  then userMapboxToken
  else exportMapboxAccessToken.

(** A plain object is its own properties in their iteration order; [get] is
    the lookup of an own property. *)
Definition get {V : Type} (o : list (string * V)) (key : string) : option V :=
  snd <$> List.find (fun kv => String.eqb (fst kv) key) o.

(** The property names a plain object inherits from [Object.prototype].
    Each reads as a truthy value: a function, or the prototype itself. *)
Definition Object_prototype_names : list string :=
  [ "constructor"; "hasOwnProperty"; "isPrototypeOf"; "propertyIsEnumerable";
    "toLocaleString"; "toString"; "valueOf"; "__proto__";
    "__defineGetter__"; "__defineSetter__";
    "__lookupGetter__"; "__lookupSetter__" ].

(** [Object.values(o)] *)
Definition Object_values {V : Type} (o : list (string * V)) : list V := o.*2.

(** [arr[i]] for an integer [i]: [None] is [undefined]. *)
Definition at_index {A : Type} (arr : list A) (i : Z) : option A :=
  if (i <? 0)%Z then None else arr !! Z.to_nat i.

Section Collaborators.
Variable Row : Type.      (* a row of a dataset *)
Variable Field : Type.    (* a field descriptor *)
Variable Json : Type.     (* values of the saved map document *)
Variable AppState : Type. (* the parts of the state only the schema reads *)

(** A dataset as [exportData] reads it; [filteredIdxCPU = None] when the
    property is absent. *)
Record Dataset : Type := mkDataset {
  allData : list Row;
  fields : list Field;
  label : string;
  filteredIdxCPU : option (list Z)
}.

Record VisState : Type := mkVisState {
  datasets : list (string * Dataset)
}.

Record UiState : Type := mkUiState {
  imageDataUri : option string   (* uiState.exportImage.imageDataUri *)
}.

Record State : Type := mkState {
  visState : VisState;
  uiState : UiState;
  rest : AppState
}.

(** The options of [exportData]. *)
Record DataOption : Type := mkDataOption {
  selectedDataset : string;
  dataType : string;
  filtered : bool
}.

(** The options of [exportHtml]. *)
Record HtmlOption : Type := mkHtmlOption {
  userMapboxToken : Token;
  exportMapboxAccessToken : Token;
  mode : Json
}.

(** A property value of the document handed to the HTML template. *)
Inductive DocValue : Type :=
| TokenValue (t : Token)
| JsonValue (j : Json).

(** Collaborators imported by the export module. *)
Variable CSV : string.                       (* EXPORT_DATA_TYPE.CSV *)
Variable formatCsv : list (option Row) -> list Field -> string.
Variable save : State -> gmap string DocValue. (* KeplerGlSchema.save *)
Variable exportMapToHTML : gmap string DocValue -> string.
(** [formatCsv(rows, undefined)]: what the serializer returns or throws when
    it is given [undefined] in place of the field list; [rows] is then an
    empty array or [undefined] ([None]). *)
Variable formatCsvNoFields : option (list (option Row)) -> completion string.

(** A thrown error of a pure call propagates. *)
Definition lift {A : Type} (c : completion A) : M A := fun w => (c, w).

(** [exportImage(state, options)] *)
Definition exportImage (state : State) : M unit :=
  match imageDataUri (uiState state) with
  | Some uri =>
      if negb (String.eqb uri "") then
        file ← lift (DataURI.dataURItoBlob uri);
        downloadFile file DEFAULT_IMAGE_NAME
      else mret tt
  | None => mret tt
  end.

(** The [data] object of [exportHtml]: the saved map, then the two
    properties written over it. *)
Definition exportHtml_data (state : State) (options : HtmlOption)
  : gmap string DocValue :=
  <["mode" := JsonValue (mode options)]>
    (<["mapboxApiAccessToken" :=
         TokenValue (mapboxApiAccessToken (userMapboxToken options)
                                          (exportMapboxAccessToken options))]>
       (save state)).

(** [exportHtml(state, options)] *)
Definition exportHtml (state : State) (options : HtmlOption) : M unit :=
  let data := exportHtml_data state options in
  let fileBlob := new_Blob [StringPart (exportMapToHTML data)] "text/html" in
  downloadFile fileBlob DEFAULT_HTML_NAME.

(** What a property read on the dataset collection can give, and so what
    the selection can hold: a dataset of the collection, or the value that
    the name has on [Object.prototype]. *)
Inductive Selected : Type :=
| OwnDataset (d : Dataset)
| InheritedValue (name : string).

(** [datasets[key]]: the own property when there is one, else the inherited
    one, else [undefined]. *)
Definition read (datasets : list (string * Dataset)) (key : string)
  : option Selected :=
  match get datasets key with
  | Some d => Some (OwnDataset d)
  | None =>
      if bool_decide (key ∈ Object_prototype_names)
      then Some (InheritedValue key)
      else None
  end.

(** [datasets[selectedDataset] ? [datasets[selectedDataset]]
     : Object.values(datasets)]; a dataset and an inherited value are both
    truthy. *)
Definition selectedDatasets (datasets : list (string * Dataset))
    (selectedDataset : string) : list Selected :=
  match read datasets selectedDataset with
  | Some selected => [selected]
  | None => OwnDataset <$> Object_values datasets
  end.

(** [filtered ? filteredIdxCPU.map(i => allData[i]) : allData], with the
    destructuring default [filteredIdxCPU = []]. *)
Definition toExport (filtered : bool) (selectedData : Dataset)
  : list (option Row) :=
  let filteredIdxCPU := default [] (filteredIdxCPU selectedData) in
  if filtered
  then (fun i => at_index (allData selectedData) i) <$> filteredIdxCPU
  else Some <$> allData selectedData.

(** The body of the [forEach] of [exportData]: the export of one dataset. *)
Definition exportDataset (dataType : string) (filtered : bool)
    (selectedData : Dataset) : M unit :=
  let filename := DEFAULT_DATA_NAME in
  let toExport := toExport filtered selectedData in
  (* start to export data according to selected data type *)
  if String.eqb dataType CSV then
    let csv := formatCsv toExport (fields selectedData) in
    let fileBlob := new_Blob [StringPart csv] "text/csv" in
    downloadFile fileBlob
      (filename +:+ "_" +:+ label selectedData +:+ ".csv")
  else mret tt.

(** The body of the [forEach] on a selected value.  An inherited value has
    none of the dataset properties: [allData], [fields] and [label] are
    [undefined], and [filteredIdxCPU] takes its default [[]]. *)
Definition exportSelected (dataType : string) (filtered : bool)
    (selectedData : Selected) : M unit :=
  match selectedData with
  | OwnDataset d => exportDataset dataType filtered d
  | InheritedValue _ =>
      let filename := DEFAULT_DATA_NAME in
      let toExport := if filtered then Some [] else None in
      if String.eqb dataType CSV then
        csv ← lift (formatCsvNoFields toExport);
        let fileBlob := new_Blob [StringPart csv] "text/csv" in
        downloadFile fileBlob (filename +:+ "_" +:+ "undefined" +:+ ".csv")
      else mret tt
  end.

(** [exportData(state, option)] *)
Definition exportData (state : State) (option : DataOption) : M unit :=
  let datasets := datasets (visState state) in
  let selectedDatasets := selectedDatasets datasets (selectedDataset option) in
  if (length selectedDatasets =? 0)%nat then
    (* error: selected dataset not found. *)
    mret tt
  else
    forEach (exportSelected (dataType option) (filtered option))
            selectedDatasets.
End Collaborators.

Arguments mkDataset {Row Field} _ _ _ _.
Arguments allData {Row Field} _.
Arguments fields {Row Field} _.
Arguments label {Row Field} _.
Arguments filteredIdxCPU {Row Field} _.
Arguments mkVisState {Row Field} _.
Arguments datasets {Row Field} _.
Arguments mkState {Row Field AppState} _ _ _.
Arguments visState {Row Field AppState} _.
Arguments uiState {Row Field AppState} _.
Arguments mkHtmlOption {Json} _ _ _.
Arguments userMapboxToken {Json} _.
Arguments exportMapboxAccessToken {Json} _.
Arguments mode {Json} _.
Arguments TokenValue {Json} _.
Arguments JsonValue {Json} _.
Arguments OwnDataset {Row Field} _.
Arguments InheritedValue {Row Field} _.
Arguments read {Row Field} _ _.
Arguments selectedDatasets {Row Field} _ _.
Arguments exportSelected {Row Field} _ _ _ _ _ _.
Arguments toExport {Row Field} _ _.
Arguments exportDataset {Row Field} _ _ _ _ _.
Arguments exportData {Row Field AppState} _ _ _ _ _.
Arguments exportHtml_data {Row Field Json AppState} _ _ _.
Arguments exportHtml {Row Field Json AppState} _ _ _ _.
Arguments exportImage {Row Field AppState} _.

Section Documents.
Context {Row Field Json AppState : Type}.

(** Collaborators of the JSON export and of the map bundle. *)
Variable save :                             (* KeplerGlSchema.save *)
  State Row Field AppState -> gmap string (DocValue Json).
Variable getConfigToSave :                  (* KeplerGlSchema.getConfigToSave *)
  State Row Field AppState -> gmap string (DocValue Json).
Variable mapInfo :                          (* state.visState.mapInfo *)
  State Row Field AppState -> Json.
(** What the [Blob] constructor makes of an array element that is an
    object. *)
Variable objectPart : gmap string (DocValue Json) -> BlobPart.

(** [exportJson(state, options)], with [hasData] the option it reads. *)
Definition exportJson (state : State Row Field AppState) (hasData : bool)
  : M unit :=
  let data := if hasData then save state else getConfigToSave state in
  let fileBlob := new_Blob [objectPart data] "application/json" in
  downloadFile fileBlob DEFAULT_JSON_NAME.

(** The object returned by [exportMap]; [thumbnail = None] is [null]. *)
Record MapBundle : Type := mkMapBundle {
  map : gmap string (DocValue Json);
  info : Json;
  thumbnail : option Blob
}.

(** [exportMap(state, option)] *)
Definition exportMap (state : State Row Field AppState)
  : completion MapBundle :=
  let mapToState := save state in
  let mapInfo := mapInfo state in
  match imageDataUri (uiState state) with
  | Some uri =>
      if negb (String.eqb uri "") then
        match DataURI.dataURItoBlob uri with
        | Return thumbnail =>
            Return (mkMapBundle mapToState mapInfo (Some thumbnail))
        | Throw e => Throw e
        end
      else Return (mkMapBundle mapToState mapInfo None)
  | None => Return (mkMapBundle mapToState mapInfo None)
  end.
End Documents.

Arguments mkMapBundle {Json} _ _ _.
Arguments map {Json} _.
Arguments info {Json} _.
Arguments thumbnail {Json} _.

End Exporters.

(** * Properties *)

(** ** Geometry calculator *)

Module GeometryProofs.
Import Geometry.
Local Open Scope Q_scope.

Lemma Qle_bool_false (x y : Q) : Qle_bool x y = false <-> y < x.
Proof.
  split; intros H.
  - apply Qnot_le_lt. intros Hle. apply Qle_bool_iff in Hle. congruence.
  - destruct (Qle_bool x y) eqn:E; [|reflexivity].
    apply Qle_bool_iff in E. exfalso. exact (Qlt_not_le _ _ H E).
Qed.

Lemma Qgtb_true (x y : Q) : Qgtb x y = true <-> y < x.
Proof.
  unfold Qgtb. rewrite negb_true_iff. apply Qle_bool_false.
Qed.

Lemma Qgtb_false (x y : Q) : Qgtb x y = false <-> x <= y.
Proof.
  unfold Qgtb. rewrite negb_false_iff. apply Qle_bool_iff.
Qed.

(** For a positive denominator the quotient exceeds 1 exactly when the
    numerator exceeds the denominator. *)
Lemma quotient_above_one (a b : Q) : 0 < b -> (1 < a / b <-> b < a).
Proof.
  intros Hb. split; intros H.
  - apply (Qmult_lt_r _ _ b Hb) in H.
    rewrite Qmult_1_l in H.
    assert (E : a / b * b == a).
    { field. intros E. rewrite E in Hb. exact (Qlt_irrefl _ Hb). }
    rewrite E in H. exact H.
  - apply Qlt_shift_div_l; [exact Hb|]. rewrite Qmult_1_l. exact H.
Qed.

Lemma some_nonpositive (imageW imageH mapW mapH : Q) :
  existsb (fun d => Qle_bool d 0) [imageW; imageH; mapW; mapH] = true <->
  imageW <= 0 \/ imageH <= 0 \/ mapW <= 0 \/ mapH <= 0.
Proof.
  cbn [existsb]. rewrite orb_false_r, !orb_true_iff, !Qle_bool_iff. tauto.
Qed.

Lemma none_nonpositive (imageW imageH mapW mapH : Q) :
  0 < imageW -> 0 < imageH -> 0 < mapW -> 0 < mapH ->
  existsb (fun d => Qle_bool d 0) [imageW; imageH; mapW; mapH] = false.
Proof.
  intros H1 H2 H3 H4.
  destruct (existsb _ _) eqn:E; [|reflexivity].
  apply some_nonpositive in E.
  destruct E as [E|[E|[E|E]]]; exfalso;
    [ exact (Qlt_not_le _ _ H1 E) | exact (Qlt_not_le _ _ H2 E)
    | exact (Qlt_not_le _ _ H3 E) | exact (Qlt_not_le _ _ H4 E) ].
Qed.

(** A square image does not take the width axis: for a 2 by 2 image of a
    1 by 2 map the function yields [2 / 2], not [2 / 1]. *)
Lemma getScaleFromImageSize_square_counterexample :
  let imageW := 2 in let imageH := 2 in let mapW := 1 in let mapH := 2 in
  0 < imageW /\ 0 < imageH /\ 0 < mapW /\ 0 < mapH /\ imageH <= imageW /\
  getScaleFromImageSize imageW imageH mapW mapH = imageH / mapH /\
  ~ getScaleFromImageSize imageW imageH mapW mapH == imageW / mapW.
Proof.
  cbv zeta. repeat split; try reflexivity; discriminate.
Qed.

(** C3 (amended): [getScaleFromImageSize] returns exactly 1 whenever one of its
    four arguments is not positive; for four positive arguments it returns
    [imageW / mapW] when the image is strictly wider than tall
    ([imageW > imageH]) and [imageH / mapH] otherwise, a square image
    included. *)
Theorem getScaleFromImageSize_spec (imageW imageH mapW mapH : Q) :
  (imageW <= 0 \/ imageH <= 0 \/ mapW <= 0 \/ mapH <= 0 ->
   getScaleFromImageSize imageW imageH mapW mapH = 1) /\
  (0 < imageW -> 0 < imageH -> 0 < mapW -> 0 < mapH ->
   (imageH < imageW ->
    getScaleFromImageSize imageW imageH mapW mapH = imageW / mapW) /\
   (imageW <= imageH ->
    getScaleFromImageSize imageW imageH mapW mapH = imageH / mapH)).
Proof.
  unfold getScaleFromImageSize. split.
  - intros H. apply some_nonpositive in H. rewrite H. reflexivity.
  - intros H1 H2 H3 H4.
    rewrite (none_nonpositive _ _ _ _ H1 H2 H3 H4). split; intros H.
    + assert (E : Qgtb (imageW / imageH) 1 = true)
        by (apply Qgtb_true; apply <- quotient_above_one; assumption).
      rewrite E. reflexivity.
    + assert (E : Qgtb (imageW / imageH) 1 = false).
      { apply Qgtb_false. apply Qnot_lt_le. intros Hlt.
        apply -> quotient_above_one in Hlt; [|assumption].
        exact (Qlt_not_le _ _ Hlt H). }
      rewrite E. reflexivity.
Qed.

Lemma getScaleFromImageSize_spec_witness :
  getScaleFromImageSize 0 600 800 600 = 1 /\
  getScaleFromImageSize 1600 1200 800 600 = 1600 / 800 /\
  getScaleFromImageSize 600 600 800 400 = 600 / 400.
Proof.
  split; [|split].
  - apply (getScaleFromImageSize_spec 0 600 800 600). left. discriminate.
  - apply (getScaleFromImageSize_spec 1600 1200 800 600); reflexivity.
  - apply (getScaleFromImageSize_spec 600 600 800 400);
      try reflexivity; discriminate.
Defined.

Section PresetProofs.
Variable EXPORT_IMG_RESOLUTION_OPTIONS : list ResolutionOption.
Variable EXPORT_IMG_RATIO_OPTIONS : list RatioOption.
Variables ONE_X FOUR_BY_THREE CUSTOM : string.

Local Abbreviation defaultResolution :=
  (defaultResolution EXPORT_IMG_RESOLUTION_OPTIONS ONE_X).
Local Abbreviation defaultRatio :=
  (defaultRatio EXPORT_IMG_RATIO_OPTIONS FOUR_BY_THREE).
Local Abbreviation resolveResolution :=
  (resolveResolution EXPORT_IMG_RESOLUTION_OPTIONS ONE_X).
Local Abbreviation resolveRatio :=
  (resolveRatio EXPORT_IMG_RATIO_OPTIONS FOUR_BY_THREE).
Local Abbreviation calculateExportImageSize :=
  (calculateExportImageSize EXPORT_IMG_RESOLUTION_OPTIONS
     EXPORT_IMG_RATIO_OPTIONS ONE_X FOUR_BY_THREE CUSTOM).

(** With the default present, a resolution identifier always resolves to an
    entry of the table. *)
Lemma resolveResolution_in (resolution : string) :
  is_Some defaultResolution ->
  exists item, resolveResolution resolution = Some item /\
               In item EXPORT_IMG_RESOLUTION_OPTIONS.
Proof.
  intros [d Hd]. unfold Geometry.resolveResolution.
  destruct (find _ EXPORT_IMG_RESOLUTION_OPTIONS) as [item|] eqn:E; simpl.
  - exists item. split; [reflexivity|]. exact (proj1 (find_some _ _ E)).
  - exists d. split; [exact Hd|]. exact (proj1 (find_some _ _ Hd)).
Qed.

Lemma resolveRatio_in (ratio : string) :
  is_Some defaultRatio ->
  exists item, resolveRatio ratio = Some item /\
               In item EXPORT_IMG_RATIO_OPTIONS.
Proof.
  intros [d Hd]. unfold Geometry.resolveRatio.
  destruct (find _ EXPORT_IMG_RATIO_OPTIONS) as [item|] eqn:E; simpl.
  - exists item. split; [reflexivity|]. exact (proj1 (find_some _ _ E)).
  - exists d. split; [exact Hd|]. exact (proj1 (find_some _ _ Hd)).
Qed.

Lemma guard_true (mapW mapH : Q) :
  Qle_bool mapW 0 || Qle_bool mapH 0 = true <-> mapW <= 0 \/ mapH <= 0.
Proof. rewrite orb_true_iff, !Qle_bool_iff. tauto. Qed.

Lemma guard_false (mapW mapH : Q) :
  0 < mapW -> 0 < mapH -> Qle_bool mapW 0 || Qle_bool mapH 0 = false.
Proof.
  intros HW HH. apply orb_false_iff. split; apply Qle_bool_false; assumption.
Qed.

(** For positive map dimensions the result is the geometry computed from
    the two resolved presets. *)
Lemma calculateExportImageSize_resolved
    (mapW mapH : Q) (ratio resolution : string)
    (ratioItem : RatioOption) (resolutionItem : ResolutionOption) :
  0 < mapW -> 0 < mapH ->
  resolveRatio ratio = Some ratioItem ->
  resolveResolution resolution = Some resolutionItem ->
  calculateExportImageSize mapW mapH ratio resolution =
  let scaled := resolution_getSize resolutionItem mapW mapH in
  let img := ratio_getSize ratioItem (width scaled) (height scaled) in
  Return (Some {| scale := if String.eqb (ratio_id ratioItem) CUSTOM
                           then None else resolution_scale resolutionItem;
                  imageW := width img;
                  imageH := height img |}).
Proof.
  intros HW HH Hq Hr. unfold Geometry.calculateExportImageSize.
  rewrite (guard_false _ _ HW HH), Hq, Hr. reflexivity.
Qed.


(** C2: for positive map dimensions the [scale] of the result is undefined
    exactly when the resolved ratio preset is the custom one, whatever the
    resolution preset; for every other ratio it is the scale of the resolved
    resolution preset. *)
Theorem calculateExportImageSize_scale
    (mapW mapH : Q) (ratio resolution : string) :
  is_Some defaultResolution -> is_Some defaultRatio ->
  scales_present EXPORT_IMG_RESOLUTION_OPTIONS ->
  0 < mapW -> 0 < mapH ->
  exists ratioItem resolutionItem g,
    resolveRatio ratio = Some ratioItem /\
    resolveResolution resolution = Some resolutionItem /\
    calculateExportImageSize mapW mapH ratio resolution = Return (Some g) /\
    (scale g = None <-> ratio_id ratioItem = CUSTOM) /\
    (ratio_id ratioItem <> CUSTOM ->
     is_Some (scale g) /\ scale g = resolution_scale resolutionItem).
Proof.
  intros Hdr Hdq Hsc HW HH.
  destruct (resolveResolution_in resolution Hdr) as (r & Hr & Hrin).
  destruct (resolveRatio_in ratio Hdq) as (q & Hq & Hqin).
  unfold scales_present in Hsc. rewrite List.Forall_forall in Hsc.
  specialize (Hsc r Hrin).
  exists q, r. eexists. split; [exact Hq|]. split; [exact Hr|].
  split; [exact (calculateExportImageSize_resolved _ _ _ _ q r HW HH Hq Hr)|].
  cbn [scale].
  destruct (String.eqb (ratio_id q) CUSTOM) eqn:E.
  - apply String.eqb_eq in E. split; [tauto|]. intros Hne. contradiction.
  - apply String.eqb_neq in E. split.
    + split; [|contradiction]. intros Hn. rewrite Hn in Hsc.
      destruct Hsc as [x Hx]. discriminate.
    + intros _. split; [exact Hsc|reflexivity].
Qed.
End PresetProofs.

Lemma model_scales_present : scales_present RESOLUTION_OPTIONS_model.
Proof. repeat constructor; eexists; reflexivity. Defined.



Lemma calculateExportImageSize_scale_witness :
  exists ratioItem resolutionItem g,
    resolveRatio RATIO_OPTIONS_model "FOUR_BY_THREE" "CUSTOM"
    = Some ratioItem /\
    resolveResolution RESOLUTION_OPTIONS_model "ONE_X" "TWO_X"
    = Some resolutionItem /\
    calculateExportImageSize RESOLUTION_OPTIONS_model RATIO_OPTIONS_model
      "ONE_X" "FOUR_BY_THREE" "CUSTOM" 800 600 "CUSTOM" "TWO_X"
    = Return (Some g) /\
    (scale g = None <-> ratio_id ratioItem = "CUSTOM") /\
    (ratio_id ratioItem <> "CUSTOM" ->
     is_Some (scale g) /\ scale g = resolution_scale resolutionItem).
Proof.
  apply (calculateExportImageSize_scale
           RESOLUTION_OPTIONS_model RATIO_OPTIONS_model
           "ONE_X" "FOUR_BY_THREE" "CUSTOM" 800 600 "CUSTOM" "TWO_X").
  - eexists; reflexivity.
  - eexists; reflexivity.
  - exact model_scales_present.
  - reflexivity.
  - reflexivity.
Defined.

End GeometryProofs.

(** ** Data URI decoder *)

Module DataURIProofs.
Import DataURI.

(** *** Splitting *)

Lemma split_nonempty (sep : ascii) (s : string) : split sep s <> [].
Proof.
  destruct s as [|c s]; simpl; [discriminate|].
  destruct (Ascii.eqb c sep); [discriminate|].
  destruct (split sep s); discriminate.
Qed.

(** A string without the separator is a single piece. *)
Lemma split_without (sep : ascii) (s : string) :
  contains sep s = false -> split sep s = [s].
Proof.
  induction s as [|c s IH]; simpl; [reflexivity|].
  intros H. apply orb_false_iff in H as [Hc Hs].
  rewrite Hc, (IH Hs). reflexivity.
Qed.

(** The first separator ends the first piece. *)
Lemma split_at_first (sep : ascii) (a b : string) :
  contains sep a = false ->
  split sep (a +:+ String sep b) = a :: split sep b.
Proof.
  induction a as [|c a IH]; simpl.
  - intros _. rewrite Ascii.eqb_refl. reflexivity.
  - intros H. apply orb_false_iff in H as [Hc Ha].
    rewrite Hc, (IH Ha). reflexivity.
Qed.

Lemma contains_append (c : ascii) (a b : string) :
  contains c (a +:+ b) = contains c a || contains c b.
Proof.
  induction a as [|x a IH]; simpl; [reflexivity|].
  rewrite IH. apply orb_assoc.
Qed.

Lemma append_assoc (a b c : string) : (a +:+ b) +:+ c = a +:+ (b +:+ c).
Proof.
  induction a as [|x a IH]; [reflexivity|].
  change (String x ((a +:+ b) +:+ c) = String x (a +:+ (b +:+ c))).
  f_equal. exact IH.
Qed.

Lemma contains_of_list (c : ascii) (l : list ascii) :
  Forall (fun x => x <> c) l -> contains c (string_of_list_ascii l) = false.
Proof.
  induction 1 as [|x l Hx _ IH]; simpl; [reflexivity|].
  rewrite IH, orb_false_r. apply Ascii.eqb_neq. exact Hx.
Qed.

(** *** Base64 *)

(** Induction on lists three elements at a time. *)
Lemma list_ind3 {A : Type} (P : list A -> Prop) :
  P [] -> (forall a, P [a]) -> (forall a b, P [a; b]) ->
  (forall a b c l, P l -> P (a :: b :: c :: l)) ->
  forall l, P l.
Proof.
  intros H0 H1 H2 H3 l.
  assert (H : P l /\ (forall a, P (a :: l)) /\ (forall a b, P (a :: b :: l))).
  { induction l as [|x l (IHa & IHb & IHc)]; [auto|].
    split; [apply IHb|]. split; [intros a; apply IHc|].
    intros a b. apply H3. exact IHa. }
  exact (proj1 H).
Qed.

Ltac each_sextet s :=
  destruct s as [[] [] [] [] [] []]; vm_compute; try reflexivity.

(** A character of the alphabet decodes to the sextet it encodes. *)
Lemma char_sextet_char (s : sextet) : char_sextet (sextet_char s) = Some s.
Proof. each_sextet s. Qed.

Lemma sextet_char_not_whitespace (s : sextet) :
  is_ascii_whitespace (sextet_char s) = false.
Proof. each_sextet s. Qed.

Lemma sextet_char_not_pad (s : sextet) : Ascii.eqb (sextet_char s) "=" = false.
Proof. each_sextet s. Qed.

Lemma sextet_char_not_comma (s : sextet) : sextet_char s <> ","%char.
Proof. each_sextet s; discriminate. Qed.

Lemma mapM_char_sextet (ss : list sextet) :
  mapM char_sextet (sextet_char <$> ss) = Some ss.
Proof.
  induction ss as [|s ss IH]; [reflexivity|].
  cbn. rewrite char_sextet_char. cbn. rewrite IH. reflexivity.
Qed.

(** Regrouping the bits: the sextets of a byte string give the bytes back. *)
Lemma decode_encode_sextets (l : list ascii) :
  decode_sextets (encode_sextets l) = l.
Proof.
  induction l as [|[]|[] []|[] [] [] l IH] using list_ind3;
    try reflexivity.
  cbn [encode_sextets decode_sextets]. rewrite IH. reflexivity.
Qed.

Lemma mod4_step (n : nat) : (S (S (S (S n))) mod 4 = n mod 4)%nat.
Proof.
  replace (S (S (S (S n)))) with (n + 1 * 4)%nat by lia.
  apply Nat.Div0.mod_add.
Qed.

Lemma padding_cases (l : list ascii) :
  padding l = [] \/ padding l = ["="%char] \/ padding l = ["="%char; "="%char].
Proof.
  induction l as [|a|a b|a b c l IH] using list_ind3; cbn [padding]; auto.
Qed.

Lemma Forall_padding (P : ascii -> Prop) (l : list ascii) :
  P "="%char -> Forall P (padding l).
Proof.
  intros HP.
  destruct (padding_cases l) as [E|[E|E]]; rewrite E; repeat constructor;
    exact HP.
Qed.

Lemma Forall_base64_chars (P : ascii -> Prop) (l : list ascii) :
  (forall s, P (sextet_char s)) -> P "="%char -> Forall P (base64_chars l).
Proof.
  intros Hs Hp. unfold base64_chars. apply Forall_app. split.
  - apply Forall_fmap, Forall_true. exact Hs.
  - apply Forall_padding. exact Hp.
Qed.

(** The padded text is made of whole groups of four characters; the text
    without its padding never has a single character left over. *)
Lemma encoded_lengths (l : list ascii) :
  ((length (encode_sextets l) + length (padding l)) mod 4 = 0 /\
   length (encode_sextets l) mod 4 <> 1)%nat.
Proof.
  induction l as [|[]|[] []|[] [] [] l [IH1 IH2]] using list_ind3;
    try (split; [reflexivity|discriminate]).
  cbn [encode_sextets padding length Nat.add].
  rewrite !mod4_step. split; assumption.
Qed.

Lemma filter_all {A : Type} (f : A -> bool) (l : list A) :
  Forall (fun x => f x = true) l -> List.filter f l = l.
Proof.
  induction 1 as [|x l Hx _ IH]; simpl; [reflexivity|].
  rewrite Hx, IH. reflexivity.
Qed.

Lemma Forall_last {A : Type} (P : A -> Prop) (l r : list A) (c : A) :
  Forall P l -> rev l = c :: r -> P c.
Proof.
  intros H E. apply List.Forall_rev in H. rewrite E in H.
  inversion H; assumption.
Qed.

(** Stripping the padding of a padded text leaves the text. *)
Lemma strip_padding_padded (text pad : list ascii) :
  Forall (fun c => Ascii.eqb c "=" = false) text ->
  pad = [] \/ pad = ["="%char] \/ pad = ["="%char; "="%char] ->
  (length (text ++ pad) mod 4 = 0)%nat ->
  strip_padding (text ++ pad) = text.
Proof.
  intros Htext Hpad Hlen. unfold strip_padding.
  rewrite Hlen. cbn [Nat.eqb]. rewrite rev_app_distr.
  destruct Hpad as [->|[->| ->]]; cbn [rev app].
  - rewrite app_nil_r. destruct (rev text) as [|c1 r1] eqn:E; [reflexivity|].
    rewrite (Forall_last _ _ _ _ Htext E). reflexivity.
  - cbn [Ascii.eqb Bool.eqb].
    destruct (rev text) as [|c2 r2] eqn:E.
    + cbn [rev]. apply (f_equal (@rev ascii)) in E.
      rewrite rev_involutive in E. symmetry. exact E.
    + rewrite (Forall_last _ _ _ _ Htext E), <- E. apply rev_involutive.
  - cbn [Ascii.eqb Bool.eqb]. apply rev_involutive.
Qed.

(** [atob] inverts the encoder. *)
Lemma atob_base64_chars (l : list ascii) :
  atob (string_of_list_ascii (base64_chars l)) = Some (string_of_list_ascii l).
Proof.
  unfold atob. rewrite list_ascii_of_string_of_list_ascii.
  rewrite filter_all.
  2:{ apply Forall_base64_chars; [|reflexivity].
      intros s. rewrite sextet_char_not_whitespace. reflexivity. }
  destruct (encoded_lengths l) as [Hlen Hrem].
  unfold base64_chars. rewrite strip_padding_padded.
  - apply Nat.eqb_neq in Hrem. rewrite length_fmap, Hrem.
    rewrite mapM_char_sextet. cbn. rewrite decode_encode_sextets. reflexivity.
  - apply Forall_fmap, Forall_true. exact sextet_char_not_pad.
  - apply padding_cases.
  - rewrite length_app, length_fmap. exact Hlen.
Qed.

Lemma length_string_of_list_ascii (l : list ascii) :
  String.length (string_of_list_ascii l) = length l.
Proof.
  induction l as [|c l IH]; simpl; [reflexivity|]. rewrite IH. reflexivity.
Qed.

(** *** The copy loop *)

Lemma to_uint8_char_code (c : ascii) :
  to_uint8 (N_of_ascii c) = byte_of_ascii c.
Proof. unfold to_uint8. rewrite ascii_N_embedding. reflexivity. Qed.

(** Loop invariant: the cells below [i] are settled, the loop writes the
    remaining ones from the characters of [binary]. *)
Lemma fill_from_spec (binary : list ascii) (fuel i : nat) (ia : list byte) :
  length ia = length binary -> (i + fuel)%nat = length binary ->
  fill_from binary fuel i ia = take i ia ++ (byte_of_ascii <$> drop i binary).
Proof.
  revert i ia. induction fuel as [|fuel IH]; intros i ia Hia Hi.
  - cbn [fill_from]. rewrite take_ge, drop_ge by lia.
    rewrite app_nil_r. reflexivity.
  - cbn [fill_from].
    destruct (lookup_lt_is_Some_2 binary i) as [c Hc]; [lia|].
    unfold charCodeAt. rewrite Hc, to_uint8_char_code.
    rewrite IH by (rewrite ?length_insert; lia).
    rewrite (take_S_r _ _ (byte_of_ascii c))
      by (apply list_lookup_insert_eq; lia).
    rewrite take_insert_ge by lia.
    rewrite (drop_S _ _ _ Hc), fmap_cons, <- app_assoc. reflexivity.
Qed.

Lemma fill_whole (binary : list ascii) :
  fill_from binary (length binary) 0 (replicate (length binary) "000"%byte)
  = byte_of_ascii <$> binary.
Proof.
  rewrite fill_from_spec; [reflexivity| |reflexivity].
  apply length_replicate.
Qed.

Lemma bytes_of_binary (B : list byte) :
  byte_of_ascii <$> (ascii_of_byte <$> B) = B.
Proof.
  induction B as [|b B IH]; [reflexivity|].
  rewrite !fmap_cons, IH, byte_of_ascii_of_byte. reflexivity.
Qed.

(** *** Round trip *)

(** The base64 text holds no comma, so the payload is the second piece. *)
Lemma base64_no_comma (B : list byte) : contains "," (base64 B) = false.
Proof.
  apply contains_of_list, Forall_base64_chars.
  - exact sextet_char_not_comma.
  - discriminate.
Qed.

Lemma split_data_uri (M payload : string) :
  contains "," M = false -> contains "," payload = false ->
  split "," ("data:" +:+ M +:+ ";base64," +:+ payload)
  = ["data:" +:+ M +:+ ";base64"; payload].
Proof.
  intros HM Hp.
  assert (E : "data:" +:+ M +:+ ";base64," +:+ payload
              = ("data:" +:+ M +:+ ";base64") +:+ String "," payload).
  { rewrite !append_assoc. reflexivity. }
  rewrite E, split_at_first, (split_without _ _ Hp); [reflexivity|].
  rewrite !contains_append, HM. reflexivity.
Qed.

Lemma split_header (M : string) :
  contains ":" M = false ->
  split ":" ("data:" +:+ M +:+ ";base64") = ["data"; M +:+ ";base64"].
Proof.
  intros HM.
  change ("data:" +:+ M +:+ ";base64")
    with ("data" +:+ String ":" (M +:+ ";base64")).
  rewrite split_at_first by reflexivity.
  rewrite split_without; [reflexivity|].
  rewrite contains_append, HM. reflexivity.
Qed.

Lemma split_mime (M : string) :
  contains ";" M = false -> split ";" (M +:+ ";base64") = [M; "base64"].
Proof.
  intros HM.
  change (M +:+ ";base64") with (M +:+ String ";" "base64").
  rewrite split_at_first by exact HM. reflexivity.
Qed.

(** A plain type is kept as it is. *)
Lemma normalize_plain_type (type : string) :
  plain_type type = true -> normalize_type type = type.
Proof.
  unfold plain_type, normalize_type. intros H.
  assert (Hp : forallb is_printable (list_ascii_of_string type) = true).
  { apply forallb_forall. intros c Hc.
    rewrite forallb_forall in H. specialize (H c Hc).
    apply andb_true_iff in H. tauto. }
  rewrite Hp. clear Hp.
  induction type as [|c type IH]; [reflexivity|].
  cbn [list_ascii_of_string forallb] in H.
  apply andb_true_iff in H as [Hc Htype].
  apply andb_true_iff in Hc as [_ Hc]. apply negb_true_iff in Hc.
  cbn [list_ascii_of_string fmap list_fmap string_of_list_ascii].
  unfold ascii_lower at 1. rewrite Hc. f_equal. exact (IH Htype).
Qed.

(** C4 (amended): for every MIME type [M] without [:], [;] and [,] and every
    byte sequence [B], decoding the data URI
    ["data:" + M + ";base64," + base64(B)] yields a blob holding exactly the
    bytes [B]; the number of bytes is the length of the decoded base64 text.
    The blob's type is what the [Blob] constructor makes of [M]: [M] in ASCII
    lower case, or the empty type when [M] holds a character outside U+0020
    to U+007E.  It is exactly [M] when [M] is printable and holds no
    upper-case letter. *)
Theorem dataURItoBlob_roundtrip (M : string) (B : list byte) :
  contains ":" M = false -> contains ";" M = false -> contains "," M = false ->
  dataURItoBlob ("data:" +:+ M +:+ ";base64," +:+ base64 B)
  = Return (mkBlob [BufferPart B] (normalize_type M)) /\
  (plain_type M = true ->
   dataURItoBlob ("data:" +:+ M +:+ ";base64," +:+ base64 B)
   = Return (mkBlob [BufferPart B] M)) /\
  exists binary, atob (base64 B) = Some binary /\
                 length B = String.length binary.
Proof.
  intros Hcolon Hsemi Hcomma.
  assert (Hatob : atob (base64 B)
                  = Some (string_of_list_ascii (ascii_of_byte <$> B)))
    by apply atob_base64_chars.
  assert (Hblob : dataURItoBlob ("data:" +:+ M +:+ ";base64," +:+ base64 B)
                  = Return (mkBlob [BufferPart B] (normalize_type M))).
  { unfold dataURItoBlob.
    rewrite (split_data_uri _ _ Hcomma (base64_no_comma B)).
    cbn [lookup list_lookup to_string default from_option id]. rewrite Hatob.
    rewrite (split_header _ Hcolon). cbn [lookup list_lookup].
    rewrite (split_mime _ Hsemi).
    cbn [lookup list_lookup default from_option id].
    rewrite list_ascii_of_string_of_list_ascii, fill_whole, bytes_of_binary.
    reflexivity. }
  split; [exact Hblob|]. split.
  - intros Hplain. rewrite Hblob, (normalize_plain_type _ Hplain).
    reflexivity.
  - eexists. split; [exact Hatob|].
    rewrite length_string_of_list_ascii, length_fmap. reflexivity.
Qed.

Lemma dataURItoBlob_roundtrip_witness :
  dataURItoBlob ("data:" +:+ "image/png" +:+ ";base64,"
                 +:+ base64 ["M"%byte; "a"%byte; "n"%byte; "y"%byte])
  = Return (mkBlob [BufferPart ["M"%byte; "a"%byte; "n"%byte; "y"%byte]]
                   "image/png").
Proof.
  apply (dataURItoBlob_roundtrip "image/png"
           ["M"%byte; "a"%byte; "n"%byte; "y"%byte]); reflexivity.
Defined.

(** The type of the blob is not always the MIME type of the URI: an
    upper-case [image/PNG] comes back as [image/png]. *)
Lemma dataURItoBlob_type_counterexample :
  let M := "image/PNG" in
  let B := ["M"%byte; "a"%byte; "n"%byte; "y"%byte] in
  contains ":" M = false /\ contains ";" M = false /\
  contains "," M = false /\
  dataURItoBlob ("data:" +:+ M +:+ ";base64," +:+ base64 B)
  = Return (mkBlob [BufferPart B] "image/png") /\
  dataURItoBlob ("data:" +:+ M +:+ ";base64," +:+ base64 B)
  <> Return (mkBlob [BufferPart B] M).
Proof.
  cbv zeta. repeat split; try reflexivity. discriminate.
Qed.

End DataURIProofs.

(** ** Delivery *)

Module BrowserProofs.
Import Browser.

Lemma bind_return {A B : Type} (m : M A) (f : A -> M B)
    (w w' : World) (a : A) :
  m w = (Return a, w') -> (m ≫= f) w = f a w'.
Proof. intros H. unfold mbind, M_bind. rewrite H. reflexivity. Qed.

Lemma bind_throw {A B : Type} (m : M A) (f : A -> M B)
    (w w' : World) (e : error) :
  m w = (Throw e, w') -> (m ≫= f) w = (Throw e, w').
Proof. intros H. unfold mbind, M_bind. rewrite H. reflexivity. Qed.

Lemma platform_runs {A : Type} (op : DomOp) (run : World -> A * World)
    (w : World) :
  faults w op = false -> platform op run w = (Return (run w).1, (run w).2).
Proof. intros H. unfold platform. rewrite H. destruct (run w); reflexivity. Qed.

Lemma platform_throws {A : Type} (op : DomOp) (run : World -> A * World)
    (w : World) :
  faults w op = true -> platform op run w = (Throw DOMError, w).
Proof. intros H. unfold platform. rewrite H. reflexivity. Qed.

(** Clicking a link that carries both attributes saves the blob. *)
Lemma click_downloads (el : nat) (url filename : string) (blob : Blob)
    (w : World) :
  faults w Click = false ->
  elements w !! el
  = Some (<["download" := filename]> (<["href" := url]> ∅)) ->
  object_urls w !! url = Some blob ->
  click el w
  = (Return tt, with_downloads (fun d => d ++ [(filename, blob)]) w).
Proof.
  intros Hf Hel Hurl. unfold click. rewrite platform_runs by exact Hf.
  rewrite Hel.
  rewrite lookup_insert_ne by discriminate.
  rewrite !lookup_insert_eq, Hurl. reflexivity.
Qed.

Lemma removeChild_child (el : nat) (w : World) :
  faults w RemoveChild = false -> el ∈ body w ->
  removeChild el w
  = (Return tt,
     with_body (List.filter (fun x => negb (Nat.eqb x el))) w).
Proof.
  intros Hf Hin. unfold removeChild.
  rewrite bool_decide_eq_true_2 by exact Hin.
  rewrite platform_runs by exact Hf. reflexivity.
Qed.

Ltac run_platform Hf :=
  erewrite bind_return
    by (first [ apply platform_runs; cbn; exact Hf
              | apply removeChild_child; cbn;
                [ exact Hf
                | apply elem_of_app; right; apply list_elem_of_here ] ]).

(** C7 (amended): [downloadFile] revokes the object URL it created as its
    last step.  When the URL and the link have been created: if appending,
    clicking, removing and revoking all succeed, the call returns normally,
    the payload has been saved under the file name and the live object URLs
    are those of before the call; if appending, clicking or removing the link
    throws, the error reaches the caller and the created URL is still
    live. *)
Theorem downloadFile_revokes_after_delivery
    (fileBlob : Blob) (filename : string) (w : World) :
  faults w CreateObjectURL = false ->
  faults w CreateElement = false ->
  faults w SetAttribute = false ->
  let url := fresh (dom (object_urls w)) in
  (faults w AppendChild = false -> faults w Click = false ->
   faults w RemoveChild = false -> faults w RevokeObjectURL = false ->
   exists w',
     downloadFile fileBlob filename w = (Return tt, w') /\
     object_urls w' = object_urls w /\
     object_urls w' !! url = None /\
     downloads w' = downloads w ++ [(filename, fileBlob)]) /\
  (faults w AppendChild = true \/ faults w Click = true \/
   faults w RemoveChild = true ->
   exists w',
     downloadFile fileBlob filename w = (Throw DOMError, w') /\
     object_urls w' !! url = Some fileBlob).
Proof.
  intros Hcreate Helement Hattr url.
  set (link := fresh (dom (elements w))).
  assert (Hurl : object_urls w !! url = None)
    by (apply not_elem_of_dom, is_fresh).
  assert (Hstart :
    downloadFile fileBlob filename w
    = (appendChild link;; click link;; removeChild link;;
       revokeObjectURL url)
        (with_elements (alter (insert "download" filename) link)
           (with_elements (alter (insert "href" url) link)
              (with_elements (insert link ∅)
                 (with_object_urls (insert url fileBlob) w))))).
  { unfold downloadFile, createObjectURL, createElement, setAttribute.
    run_platform Hcreate. run_platform Helement.
    run_platform Hattr. run_platform Hattr. reflexivity. }
  rewrite Hstart. clear Hstart.
  set (w1 := with_elements _ _).
  assert (Hclick : forall w2 : World,
    faults w2 Click = false -> elements w2 = elements w1 ->
    object_urls w2 = object_urls w1 ->
    click link w2
    = (Return tt, with_downloads (fun d => d ++ [(filename, fileBlob)]) w2)).
  { intros w2 Hf Hel Hobj.
    apply (click_downloads _ url filename fileBlob); [exact Hf| |].
    - rewrite Hel. cbn.
      rewrite !lookup_alter_eq, lookup_insert_eq. reflexivity.
    - rewrite Hobj. cbn. apply lookup_insert_eq. }
  split.
  - intros Happend Hclk Hremove Hrevoke. unfold appendChild.
    run_platform Happend. cbn [fst snd].
    erewrite bind_return by (apply Hclick; [exact Hclk|reflexivity..]).
    run_platform Hremove.
    unfold revokeObjectURL. rewrite platform_runs by (cbn; exact Hrevoke).
    eexists. split; [reflexivity|]. cbn.
    rewrite delete_insert_id by exact Hurl.
    split; [reflexivity|]. split; [exact Hurl|reflexivity].
  - intros Hfault. unfold appendChild.
    destruct (faults w AppendChild) eqn:Happend.
    { erewrite bind_throw by (apply platform_throws; cbn; exact Happend).
      eexists. split; [reflexivity|]. cbn. apply lookup_insert_eq. }
    run_platform Happend. cbn [fst snd].
    destruct (faults w Click) eqn:Hclk.
    { erewrite bind_throw
        by (unfold click; apply platform_throws; cbn; exact Hclk).
      eexists. split; [reflexivity|]. cbn. apply lookup_insert_eq. }
    erewrite bind_return by (apply Hclick; [exact Hclk|reflexivity..]).
    destruct (faults w RemoveChild) eqn:Hremove.
    { erewrite bind_throw.
      2:{ unfold removeChild.
          rewrite bool_decide_eq_true_2
            by (cbn; apply elem_of_app; right; apply list_elem_of_here).
          apply platform_throws. cbn. exact Hremove. }
      eexists. split; [reflexivity|]. cbn. apply lookup_insert_eq. }
    exfalso. destruct Hfault as [H|[H|H]]; inversion H.
Qed.

Lemma downloadFile_revokes_after_delivery_witness :
  exists w',
    downloadFile (mkBlob [StringPart "a,b"] "text/csv") "kepler-gl_trips.csv"
                 (mkWorld ∅ ∅ [] [] (fun _ => false))
    = (Return tt, w') /\
    object_urls w' = ∅ /\
    object_urls w' !! fresh (dom (∅ : gmap string Blob)) = None /\
    downloads w'
    = [] ++ [("kepler-gl_trips.csv", mkBlob [StringPart "a,b"] "text/csv")].
Proof.
  apply (downloadFile_revokes_after_delivery
           (mkBlob [StringPart "a,b"] "text/csv") "kepler-gl_trips.csv"
           (mkWorld ∅ ∅ [] [] (fun _ => false)));
    reflexivity.
Defined.

(** Release on every exit path does not hold: when appending the link
    throws, the error reaches the caller and the URL that was created is
    still live. *)
Lemma downloadFile_leak_counterexample :
  let w := mkWorld ∅ ∅ [] []
             (fun op => match op with AppendChild => true | _ => false end) in
  let fileBlob := mkBlob [StringPart "a,b"] "text/csv" in
  let url := fresh (dom (object_urls w)) in
  object_urls w !! url = None /\
  fst (downloadFile fileBlob "kepler-gl_trips.csv" w) = Throw DOMError /\
  object_urls (snd (downloadFile fileBlob "kepler-gl_trips.csv" w)) !! url
  = Some fileBlob.
Proof. cbv zeta. repeat split; vm_compute; reflexivity. Qed.

End BrowserProofs.

(** ** Exporters *)

Module ExportersProofs.
Import Browser Exporters.

(** *** The access token of the standalone document *)

Lemma mapboxApiAccessToken_override (s : string) (fallback : Token) :
  s <> "" -> mapboxApiAccessToken (TokenString s) fallback = TokenString s.
Proof.
  intros Hs. apply String.eqb_neq in Hs.
  unfold mapboxApiAccessToken, truthy. rewrite Hs. cbn. rewrite Hs. reflexivity.
Qed.

Lemma mapboxApiAccessToken_fallback (user fallback : Token) :
  user = TokenString "" \/ user = TokenNull \/ user = TokenUndefined ->
  mapboxApiAccessToken user fallback = fallback.
Proof. intros [->|[->| ->]]; reflexivity. Qed.

Section Collaborators.
Context {Row Field Json AppState : Type}.
Variable CSV : string.
Variable formatCsv : list (option Row) -> list Field -> string.
Variable formatCsvNoFields :
  option (list (option Row)) -> completion string.
Variable save : State Row Field AppState -> gmap string (DocValue Json).
Variable exportMapToHTML : gmap string (DocValue Json) -> string.

(** C9: the access token embedded in the document handed to the HTML
    template is the user's override exactly when that override is a
    non-empty string; for an empty, [null] or [undefined] override it is the
    fallback token. *)
Theorem exportHtml_access_token
    (state : State Row Field AppState) (options : HtmlOption Json) :
  let embedded := exportHtml_data save state options
                    !! "mapboxApiAccessToken" in
  exportHtml save exportMapToHTML state options
  = downloadFile
      (mkBlob [StringPart (exportMapToHTML
                             (exportHtml_data save state options))]
              "text/html")
      DEFAULT_HTML_NAME /\
  (forall s, userMapboxToken options = TokenString s -> s <> "" ->
             embedded = Some (TokenValue (TokenString s))) /\
  (userMapboxToken options = TokenString "" \/
   userMapboxToken options = TokenNull \/
   userMapboxToken options = TokenUndefined ->
   embedded = Some (TokenValue (exportMapboxAccessToken options))) /\
  (exportMapboxAccessToken options <> userMapboxToken options ->
   (embedded = Some (TokenValue (userMapboxToken options)) <->
    exists s, userMapboxToken options = TokenString s /\ s <> "")).
Proof.
  cbv zeta. split; [reflexivity|].
  unfold exportHtml_data.
  rewrite lookup_insert_ne by discriminate. rewrite lookup_insert_eq.
  split; [|split].
  - intros s -> Hs. rewrite mapboxApiAccessToken_override by exact Hs.
    reflexivity.
  - intros H. rewrite mapboxApiAccessToken_fallback by exact H. reflexivity.
  - intros Hne. split.
    + intros H.
      destruct (userMapboxToken options) as [| |s] eqn:E.
      * rewrite mapboxApiAccessToken_fallback in H by auto. congruence.
      * rewrite mapboxApiAccessToken_fallback in H by auto. congruence.
      * exists s. split; [reflexivity|]. intros ->.
        rewrite mapboxApiAccessToken_fallback in H by auto. congruence.
    + intros (s & -> & Hs).
      rewrite mapboxApiAccessToken_override by exact Hs. reflexivity.
Qed.

(** *** Dataset selection *)

Lemma get_absent {V : Type} (o : list (string * V)) (key : string) :
  key ∉ o.*1 -> get o key = None.
Proof.
  unfold get. induction o as [|[k v] o IH]; [reflexivity|].
  intros Hnotin. rewrite fmap_cons, not_elem_of_cons in Hnotin.
  destruct Hnotin as [Hne Hnotin]. cbn [fst] in Hne. cbn [List.find fst].
  destruct (String.eqb k key) eqn:E.
  - apply String.eqb_eq in E. congruence.
  - apply IH, Hnotin.
Qed.

Lemma get_present {V : Type} (o : list (string * V)) (key : string) (v : V) :
  NoDup o.*1 -> (key, v) ∈ o -> get o key = Some v.
Proof.
  unfold get. induction o as [|[k v'] o IH]; intros Hnd Hin.
  - inversion Hin.
  - rewrite fmap_cons in Hnd. apply NoDup_cons in Hnd as [Hk Hnd].
    cbn [List.find fst]. apply elem_of_cons in Hin as [Heq|Hin].
    + injection Heq as <- <-. rewrite String.eqb_refl. reflexivity.
    + destruct (String.eqb k key) eqn:E; [|exact (IH Hnd Hin)].
      apply String.eqb_eq in E. subst k. exfalso. apply Hk.
      apply list_elem_of_fmap. exists (key, v). split; [reflexivity|exact Hin].
Qed.

(** C5 (amended): when the selected id names a dataset of the collection,
    the selection is that single dataset; for every id that is neither a key
    of the collection nor a property name inherited from [Object.prototype],
    the empty id included, it is all datasets in the collection's iteration
    order. *)
Theorem selectedDatasets_selection
    (datasets : list (string * Dataset Row Field)) (selectedDataset : string) :
  (forall d, NoDup datasets.*1 -> (selectedDataset, d) ∈ datasets ->
             selectedDatasets datasets selectedDataset = [OwnDataset d]) /\
  (selectedDataset ∉ datasets.*1 ->
   selectedDataset ∉ Object_prototype_names ->
   selectedDatasets datasets selectedDataset = OwnDataset <$> datasets.*2).
Proof.
  unfold selectedDatasets, read. split.
  - intros d Hnd Hin. rewrite (get_present _ _ _ Hnd Hin). reflexivity.
  - intros Hnotin Hplain. rewrite (get_absent _ _ Hnotin).
    rewrite bool_decide_eq_false_2 by exact Hplain. reflexivity.
Qed.

(** *** Rows handed to the serializer *)



(** *** Export data types without a serializer *)

Lemma forEach_skips {A : Type} (f : A -> M unit) (arr : list A) (w : World) :
  (forall x w, f x w = (Return tt, w)) -> forEach f arr w = (Return tt, w).
Proof.
  intros Hf. induction arr as [|x arr IH]; [reflexivity|].
  cbn [forEach]. rewrite (BrowserProofs.bind_return _ _ _ _ _ (Hf x w)).
  exact IH.
Qed.

(** C8: for every data type other than CSV, [exportData] returns normally
    and delivers nothing: the browser is left as it was, for each dataset
    and for the whole export. *)
Theorem exportData_unrecognized_type
    (state : State Row Field AppState) (option : DataOption) (w : World) :
  dataType option <> CSV ->
  exportData CSV formatCsv formatCsvNoFields state option w = (Return tt, w) /\
  (forall selectedData w,
     exportDataset CSV formatCsv (dataType option) (filtered option)
                   selectedData w
     = (Return tt, w)).
Proof.
  intros Hne. apply String.eqb_neq in Hne.
  assert (Hone : forall selectedData w,
    exportDataset CSV formatCsv (dataType option) (filtered option)
                  selectedData w = (Return tt, w)).
  { intros d w0. unfold exportDataset. rewrite Hne. reflexivity. }
  split; [|exact Hone].
  unfold exportData. destruct (_ =? _)%nat; [reflexivity|].
  apply forEach_skips. intros [d|name] w0; [apply Hone|].
  unfold exportSelected. rewrite Hne. reflexivity.
Qed.
End Collaborators.

(** *** The theorems at concrete exports *)

Lemma exportHtml_access_token_witness :
  exportHtml_data (Row := string) (Field := string) (AppState := unit)
      (fun _ => ∅)
      (mkState (mkVisState []) (mkUiState None) tt)
      (mkHtmlOption (TokenString "pk.user") (TokenString "pk.fallback")
                    "READ_ONLY")
    !! "mapboxApiAccessToken"
  = Some (TokenValue (TokenString "pk.user")).
Proof.
  pose proof (exportHtml_access_token
                (Row := string) (Field := string) (AppState := unit)
                (fun _ => ∅) (fun _ => "<html/>")
                (mkState (mkVisState []) (mkUiState None) tt)
                (mkHtmlOption (TokenString "pk.user")
                              (TokenString "pk.fallback") "READ_ONLY")) as H.
  cbv zeta in H. destruct H as (_ & H & _).
  apply (H "pk.user"); [reflexivity|discriminate].
Defined.

Lemma selectedDatasets_selection_witness :
  selectedDatasets
    [("a", mkDataset ["r0"] ["f"] "first" None);
     ("b", mkDataset ["r1"] ["f"] "second" None)] "b"
  = [OwnDataset (mkDataset ["r1"] ["f"] "second" None)] /\
  selectedDatasets
    [("a", mkDataset ["r0"] ["f"] "first" None);
     ("b", mkDataset ["r1"] ["f"] "second" None)] ""
  = [OwnDataset (mkDataset ["r0"] ["f"] "first" None);
     OwnDataset (mkDataset ["r1"] ["f"] "second" None)].
Proof.
  split.
  - apply (proj1 (selectedDatasets_selection
                    [("a", mkDataset ["r0"] ["f"] "first" None);
                     ("b", mkDataset ["r1"] ["f"] "second" None)] "b")).
    + apply NoDup_cons. split; [|apply NoDup_singleton].
      intros Hin. apply list_elem_of_singleton in Hin. discriminate.
    + apply list_elem_of_further, list_elem_of_here.
  - apply (proj2 (selectedDatasets_selection
                    [("a", mkDataset ["r0"] ["f"] "first" None);
                     ("b", mkDataset ["r1"] ["f"] "second" None)] "")).
    + intros Hin. apply elem_of_cons in Hin as [Hin|Hin]; [discriminate|].
      apply list_elem_of_singleton in Hin. discriminate.
    + apply (bool_decide_eq_false_1 (_ ∈ _)). vm_compute. reflexivity.
Defined.

(** An id that is no key does not always select all datasets: [constructor]
    names a property every plain object inherits, and the selection is that
    one inherited value. *)
Lemma selectedDatasets_inherited_counterexample :
  let datasets := [("a", mkDataset ["r0"] ["f"] "first" None);
                   ("b", mkDataset ["r1"] ["f"] "second" None)] in
  ("constructor" ∉ datasets.*1) /\
  selectedDatasets datasets "constructor" = [InheritedValue "constructor"] /\
  selectedDatasets datasets "constructor" <> OwnDataset <$> datasets.*2.
Proof.
  cbv zeta. split; [|split; [reflexivity|discriminate]].
  intros Hin. apply elem_of_cons in Hin as [Hin|Hin]; [discriminate|].
  apply list_elem_of_singleton in Hin. discriminate.
Qed.


(** Indices [2, 0] over rows [r0, r1, r2] give [r2, r0]. *)
Example toExport_index_order :
  toExport true (mkDataset ["r0"; "r1"; "r2"] ["f"] "trips" (Some [2; 0]%Z))
  = [Some "r2"; Some "r0"].
Proof. reflexivity. Qed.


Lemma exportData_unrecognized_type_witness :
  exportData (AppState := unit) "csv" (fun _ _ => "")
    (fun _ => Throw TypeError)
    (mkState (mkVisState [("a", mkDataset ["r0"] ["f"] "first" None)])
             (mkUiState None) tt)
    (mkDataOption "a" "json" false)
    (mkWorld ∅ ∅ [] [] (fun _ => false))
  = (Return tt, mkWorld ∅ ∅ [] [] (fun _ => false)).
Proof.
  apply (exportData_unrecognized_type "csv" (fun _ _ => "")
           (fun _ => Throw TypeError)
           (mkState (mkVisState [("a", mkDataset ["r0"] ["f"] "first" None)])
                    (mkUiState None) tt)
           (mkDataOption "a" "json" false)
           (mkWorld ∅ ∅ [] [] (fun _ => false))).
  discriminate.
Defined.

End ExportersProofs.

(** * Further properties *)

(** ** Geometry calculator *)

Module GeometryExtras.
Import Geometry.
Local Open Scope Q_scope.

Section PresetExtras.
Variable EXPORT_IMG_RESOLUTION_OPTIONS : list ResolutionOption.
Variable EXPORT_IMG_RATIO_OPTIONS : list RatioOption.
Variables ONE_X FOUR_BY_THREE CUSTOM : string.

Local Abbreviation calculateExportImageSize :=
  (calculateExportImageSize EXPORT_IMG_RESOLUTION_OPTIONS
     EXPORT_IMG_RATIO_OPTIONS ONE_X FOUR_BY_THREE CUSTOM).

(** An identifier that names no entry is not found. *)
Lemma find_unknown {A : Type} (id_of : A -> string) (table : list A)
    (id : string) :
  id ∉ (id_of <$> table) ->
  find (fun op => String.eqb (id_of op) id) table = None.
Proof.
  induction table as [|op table IH]; [reflexivity|].
  rewrite fmap_cons, not_elem_of_cons. intros [Hne Hnotin].
  cbn [find]. destruct (String.eqb (id_of op) id) eqn:E.
  - apply String.eqb_eq in E. congruence.
  - exact (IH Hnotin).
Qed.

Lemma or_else_same {A : Type} (a : option A) : or_else a a = a.
Proof. destruct a; reflexivity. Qed.

(** X3: an identifier that names no preset behaves as the default one: an
    unknown ratio as [FOUR_BY_THREE], an unknown resolution as [ONE_X]. *)
Theorem calculateExportImageSize_unknown_ids
    (mapW mapH : Q) (ratio resolution : string) :
  (ratio ∉ (ratio_id <$> EXPORT_IMG_RATIO_OPTIONS) ->
   calculateExportImageSize mapW mapH ratio resolution
   = calculateExportImageSize mapW mapH FOUR_BY_THREE resolution) /\
  (resolution ∉ (resolution_id <$> EXPORT_IMG_RESOLUTION_OPTIONS) ->
   calculateExportImageSize mapW mapH ratio resolution
   = calculateExportImageSize mapW mapH ratio ONE_X).
Proof.
  split; intros Hunknown; unfold Geometry.calculateExportImageSize.
  - replace (resolveRatio EXPORT_IMG_RATIO_OPTIONS FOUR_BY_THREE ratio)
      with (resolveRatio EXPORT_IMG_RATIO_OPTIONS FOUR_BY_THREE FOUR_BY_THREE);
      [reflexivity|].
    unfold resolveRatio. rewrite (find_unknown _ _ _ Hunknown).
    apply or_else_same.
  - replace (resolveResolution EXPORT_IMG_RESOLUTION_OPTIONS ONE_X resolution)
      with (resolveResolution EXPORT_IMG_RESOLUTION_OPTIONS ONE_X ONE_X);
      [reflexivity|].
    unfold resolveResolution. rewrite (find_unknown _ _ _ Hunknown).
    apply or_else_same.
Qed.

(** X4: the size check comes first: for a non-positive map dimension the
    result is [null] whatever the preset tables hold.  For positive
    dimensions, when neither the requested resolution nor the default one is
    in its table (or neither the requested ratio nor the default one), the
    call throws a [TypeError]. *)
Theorem calculateExportImageSize_missing_preset
    (mapW mapH : Q) (ratio resolution : string) :
  (mapW <= 0 \/ mapH <= 0 ->
   calculateExportImageSize mapW mapH ratio resolution = Return None) /\
  (0 < mapW -> 0 < mapH ->
   ((resolution ∉ (resolution_id <$> EXPORT_IMG_RESOLUTION_OPTIONS)) /\
    (ONE_X ∉ (resolution_id <$> EXPORT_IMG_RESOLUTION_OPTIONS))) \/
   ((ratio ∉ (ratio_id <$> EXPORT_IMG_RATIO_OPTIONS)) /\
    (FOUR_BY_THREE ∉ (ratio_id <$> EXPORT_IMG_RATIO_OPTIONS))) ->
   calculateExportImageSize mapW mapH ratio resolution = Throw TypeError).
Proof.
  unfold Geometry.calculateExportImageSize. split.
  - intros H. apply GeometryProofs.guard_true in H. rewrite H. reflexivity.
  - intros HW HH Hmissing.
    rewrite (GeometryProofs.guard_false _ _ HW HH).
    destruct Hmissing as [[Hid Hdefault]|[Hid Hdefault]].
    + unfold resolveResolution, defaultResolution.
      rewrite (find_unknown _ _ _ Hid), (find_unknown _ _ _ Hdefault).
      reflexivity.
    + unfold resolveRatio, defaultRatio.
      rewrite (find_unknown _ _ _ Hid), (find_unknown _ _ _ Hdefault).
      cbn [or_else]. destruct (resolveResolution _ _ _); reflexivity.
Qed.
End PresetExtras.

Lemma calculateExportImageSize_unknown_ids_witness :
  calculateExportImageSize RESOLUTION_OPTIONS_model RATIO_OPTIONS_model
    "ONE_X" "FOUR_BY_THREE" "CUSTOM" 800 600 "unknown" "TWO_X"
  = calculateExportImageSize RESOLUTION_OPTIONS_model RATIO_OPTIONS_model
      "ONE_X" "FOUR_BY_THREE" "CUSTOM" 800 600 "FOUR_BY_THREE" "TWO_X".
Proof.
  apply (proj1 (calculateExportImageSize_unknown_ids
                  RESOLUTION_OPTIONS_model RATIO_OPTIONS_model
                  "ONE_X" "FOUR_BY_THREE" "CUSTOM" 800 600 "unknown" "TWO_X")).
  cbn. intros Hin.
  apply elem_of_cons in Hin as [Hin|Hin]; [discriminate|].
  apply list_elem_of_singleton in Hin. discriminate.
Defined.

Lemma calculateExportImageSize_missing_preset_witness :
  calculateExportImageSize [] RATIO_OPTIONS_model
    "ONE_X" "FOUR_BY_THREE" "CUSTOM" 800 600 "CUSTOM" "TWO_X"
  = Throw TypeError.
Proof.
  apply (proj2 (calculateExportImageSize_missing_preset
                  [] RATIO_OPTIONS_model
                  "ONE_X" "FOUR_BY_THREE" "CUSTOM" 800 600 "CUSTOM" "TWO_X"));
    [reflexivity|reflexivity|].
  left. split; apply not_elem_of_nil.
Defined.

End GeometryExtras.

(** ** Data URI decoder *)

Module DataURIExtras.
Import DataURI DataURIProofs.

Lemma append_cons (c : ascii) (a b : string) :
  String c a +:+ b = String c (a +:+ b).
Proof. reflexivity. Qed.

(** The first piece of a text that starts with a separator-free part. *)
Lemma split_head_append (sep : ascii) (a t : string) :
  contains sep a = false ->
  exists piece pieces,
    split sep t = piece :: pieces /\
    split sep (a +:+ t) = (a +:+ piece) :: pieces.
Proof.
  induction a as [|c a IH]; intros Ha.
  - destruct (split sep t) as [|piece pieces] eqn:E.
    + exfalso. exact (split_nonempty _ _ E).
    + exists piece, pieces. split; [reflexivity|exact E].
  - cbn [contains] in Ha. apply orb_false_iff in Ha as [Hc Ha].
    destruct (IH Ha) as (piece & pieces & Ht & Hat).
    exists piece, pieces. split; [exact Ht|].
    rewrite append_cons. cbn [split]. rewrite Hc, Hat. reflexivity.
Qed.

(** The decoder in terms of the pieces it cuts the URI into. *)
Lemma dataURItoBlob_pieces (dataURI header payload binary scheme rest mime
    : string) (tl tl' tl'' : list string) :
  split "," dataURI = header :: payload :: tl ->
  atob payload = Some binary ->
  split ":" header = scheme :: rest :: tl' ->
  split ";" rest = mime :: tl'' ->
  dataURItoBlob dataURI
  = Return (mkBlob [BufferPart (byte_of_ascii <$> list_ascii_of_string binary)]
                   (normalize_type mime)).
Proof.
  intros Hcomma Hatob Hcolon Hsemi. unfold dataURItoBlob.
  rewrite Hcomma. cbn [lookup list_lookup to_string default from_option id].
  rewrite Hatob, Hcolon. cbn [lookup list_lookup].
  rewrite Hsemi. cbn [lookup list_lookup default from_option id].
  rewrite fill_whole. reflexivity.
Qed.

Lemma base64_decodes (B : list byte) :
  atob (base64 B) = Some (string_of_list_ascii (ascii_of_byte <$> B)).
Proof. apply atob_base64_chars. Qed.

Lemma decoded_bytes (B : list byte) :
  byte_of_ascii
    <$> list_ascii_of_string (string_of_list_ascii (ascii_of_byte <$> B))
  = B.
Proof.
  rewrite list_ascii_of_string_of_list_ascii. apply bytes_of_binary.
Qed.

(** X5: a text without a comma is rejected: the payload is [undefined],
    which [atob] refuses, so the call throws [InvalidCharacterError]. *)
Theorem dataURItoBlob_without_comma (dataURI : string) :
  contains "," dataURI = false ->
  dataURItoBlob dataURI = Throw InvalidCharacterError.
Proof.
  intros H. unfold dataURItoBlob. rewrite (split_without _ _ H).
  reflexivity.
Qed.

Lemma dataURItoBlob_without_comma_witness :
  dataURItoBlob "data:image/png;base64" = Throw InvalidCharacterError.
Proof.
  apply (dataURItoBlob_without_comma "data:image/png;base64"). reflexivity.
Defined.

(** X6: the payload is decoded before the header is read: a payload that is
    not base64 throws [InvalidCharacterError] whatever the header; with a
    payload that decodes, a header without a colon throws [TypeError]. *)
Theorem dataURItoBlob_malformed (header payload : string) :
  contains "," header = false -> contains "," payload = false ->
  (atob payload = None ->
   dataURItoBlob (header +:+ "," +:+ payload) = Throw InvalidCharacterError) /\
  (forall binary, atob payload = Some binary ->
   contains ":" header = false ->
   dataURItoBlob (header +:+ "," +:+ payload) = Throw TypeError).
Proof.
  intros Hheader Hpayload.
  assert (Hsplit : split "," (header +:+ "," +:+ payload) = [header; payload]).
  { change ("," +:+ payload) with (String "," payload).
    rewrite (split_at_first _ _ _ Hheader), (split_without _ _ Hpayload).
    reflexivity. }
  unfold dataURItoBlob. rewrite Hsplit.
  cbn [lookup list_lookup to_string default from_option id]. split.
  - intros ->. reflexivity.
  - intros binary -> Hcolon. rewrite (split_without _ _ Hcolon). reflexivity.
Qed.

Lemma dataURItoBlob_malformed_witness :
  dataURItoBlob ("image/png;base64" +:+ "," +:+ "TWFu") = Throw TypeError.
Proof.
  apply (proj2 (dataURItoBlob_malformed "image/png;base64" "TWFu"
                  eq_refl eq_refl) "Man"); reflexivity.
Defined.

(** X7: neither the scheme nor the marker after the MIME type is checked:
    for any scheme [S] without [:] and [,], any MIME type [M] without [:],
    [;] and [,] and any parameter text [P] without [,], the URI
    [S ":" M ";" P "," base64(B)] decodes to the bytes [B], in a blob whose
    type is what the [Blob] constructor makes of [M]. *)
Theorem dataURItoBlob_lenient (S M P : string) (B : list byte) :
  contains ":" S = false -> contains "," S = false ->
  contains ":" M = false -> contains ";" M = false -> contains "," M = false ->
  contains "," P = false ->
  dataURItoBlob (S +:+ ":" +:+ M +:+ ";" +:+ P +:+ "," +:+ base64 B)
  = Return (mkBlob [BufferPart B] (normalize_type M)).
Proof.
  intros HSc HSm HMc HMs HMm HPm.
  set (header := S +:+ String ":" (M +:+ String ";" P)).
  assert (E : S +:+ ":" +:+ M +:+ ";" +:+ P +:+ "," +:+ base64 B
              = header +:+ String "," (base64 B)).
  { unfold header.
    repeat first [rewrite append_assoc | rewrite append_cons].
    reflexivity. }
  assert (Hheader : contains "," header = false).
  { unfold header. rewrite contains_append. cbn [contains].
    rewrite contains_append. cbn [contains]. rewrite HSm, HMm, HPm.
    reflexivity. }
  destruct (split_head_append ":" M (String ";" P) HMc)
    as (piece & pieces & Hparam & Hrest).
  assert (Hpiece : exists p, piece = String ";" p).
  { cbn [split] in Hparam. change (Ascii.eqb ";" ":") with false in Hparam.
    cbv iota in Hparam. destruct (split ":" P) as [|p ps].
    - injection Hparam as <- _. eexists. reflexivity.
    - injection Hparam as <- _. eexists. reflexivity. }
  destruct Hpiece as [p ->].
  rewrite E.
  rewrite (dataURItoBlob_pieces _ header (base64 B)
             (string_of_list_ascii (ascii_of_byte <$> B)) S
             (M +:+ String ";" p) M [] pieces (split ";" p)).
  - rewrite decoded_bytes. reflexivity.
  - rewrite (split_at_first _ _ _ Hheader).
    rewrite (split_without _ _ (base64_no_comma B)). reflexivity.
  - apply base64_decodes.
  - unfold header. rewrite (split_at_first _ _ _ HSc), Hrest. reflexivity.
  - apply split_at_first. exact HMs.
Qed.

Lemma dataURItoBlob_lenient_witness :
  dataURItoBlob ("blob" +:+ ":" +:+ "text/csv" +:+ ";" +:+ "charset=utf-8:x"
                 +:+ "," +:+ base64 ["a"%byte; "b"%byte])
  = Return (mkBlob [BufferPart ["a"%byte; "b"%byte]] "text/csv").
Proof.
  apply (dataURItoBlob_lenient "blob" "text/csv" "charset=utf-8:x"
           ["a"%byte; "b"%byte]); reflexivity.
Defined.

(** X8: only the text between the first and the second comma is the
    payload: whatever follows a second comma is ignored, and the URI decodes
    to the bytes [B] in a blob whose type is what the [Blob] constructor
    makes of [M]. *)
Theorem dataURItoBlob_ignores_trailing (M G : string) (B : list byte) :
  contains ":" M = false -> contains ";" M = false -> contains "," M = false ->
  dataURItoBlob ("data:" +:+ M +:+ ";base64," +:+ base64 B +:+ "," +:+ G)
  = Return (mkBlob [BufferPart B] (normalize_type M)).
Proof.
  intros HMc HMs HMm.
  assert (E : "data:" +:+ M +:+ ";base64," +:+ base64 B +:+ "," +:+ G
              = ("data:" +:+ M +:+ ";base64")
                  +:+ String "," (base64 B +:+ String "," G)).
  { rewrite !append_assoc. reflexivity. }
  rewrite E.
  rewrite (dataURItoBlob_pieces _ ("data:" +:+ M +:+ ";base64") (base64 B)
             (string_of_list_ascii (ascii_of_byte <$> B))
             "data" (M +:+ ";base64") M (split "," G) [] ["base64"]).
  - rewrite decoded_bytes. reflexivity.
  - rewrite split_at_first
      by (rewrite !contains_append, HMm; reflexivity).
    rewrite (split_at_first _ _ _ (base64_no_comma B)). reflexivity.
  - apply base64_decodes.
  - apply split_header. exact HMc.
  - apply split_mime. exact HMs.
Qed.

Lemma dataURItoBlob_ignores_trailing_witness :
  dataURItoBlob ("data:" +:+ "image/png" +:+ ";base64,"
                 +:+ base64 ["M"%byte] +:+ "," +:+ "a,b")
  = Return (mkBlob [BufferPart ["M"%byte]] "image/png").
Proof.
  apply (dataURItoBlob_ignores_trailing "image/png" "a,b" ["M"%byte]);
    reflexivity.
Defined.

(** X9: a URI without parameters, ["data:" M "," base64(B)], decodes as
    well, to the bytes [B] in a blob whose type is what the [Blob]
    constructor makes of [M]: the text up to the first [;] of the header, or
    to its end, is the type option. *)
Theorem dataURItoBlob_without_parameters (M : string) (B : list byte) :
  contains ":" M = false -> contains ";" M = false -> contains "," M = false ->
  dataURItoBlob ("data:" +:+ M +:+ "," +:+ base64 B)
  = Return (mkBlob [BufferPart B] (normalize_type M)).
Proof.
  intros HMc HMs HMm.
  assert (E : "data:" +:+ M +:+ "," +:+ base64 B
              = ("data" +:+ String ":" M) +:+ String "," (base64 B)).
  { rewrite !append_assoc. reflexivity. }
  rewrite E.
  rewrite (dataURItoBlob_pieces _ ("data" +:+ String ":" M) (base64 B)
             (string_of_list_ascii (ascii_of_byte <$> B))
             "data" M M [] [] []).
  - rewrite decoded_bytes. reflexivity.
  - rewrite split_at_first
      by (rewrite contains_append; cbn [contains]; rewrite HMm; reflexivity).
    rewrite (split_without _ _ (base64_no_comma B)). reflexivity.
  - apply base64_decodes.
  - rewrite split_at_first by reflexivity.
    rewrite (split_without _ _ HMc). reflexivity.
  - apply split_without. exact HMs.
Qed.

Lemma dataURItoBlob_without_parameters_witness :
  dataURItoBlob ("data:" +:+ "text/plain" +:+ "," +:+ base64 ["h"%byte])
  = Return (mkBlob [BufferPart ["h"%byte]] "text/plain").
Proof.
  apply (dataURItoBlob_without_parameters "text/plain" ["h"%byte]);
    reflexivity.
Defined.

(** The canonical URI decodes (a form the exporters' proofs share). *)
Lemma canonical_uri_decodes (M : string) (B : list byte) :
  contains ":" M = false -> contains ";" M = false -> contains "," M = false ->
  dataURItoBlob ("data:" +:+ M +:+ ";base64," +:+ base64 B)
  = Return (mkBlob [BufferPart B] (normalize_type M)).
Proof.
  intros HMc HMs HMm.
  rewrite (dataURItoBlob_pieces _ ("data:" +:+ M +:+ ";base64") (base64 B)
             (string_of_list_ascii (ascii_of_byte <$> B))
             "data" (M +:+ ";base64") M [] [] ["base64"]).
  - rewrite decoded_bytes. reflexivity.
  - apply split_data_uri; [exact HMm|apply base64_no_comma].
  - apply base64_decodes.
  - apply split_header. exact HMc.
  - apply split_mime. exact HMs.
Qed.

End DataURIExtras.

(** ** Delivery *)

Module BrowserExtras.
Import Browser BrowserProofs.

(** One platform call that does not fail. *)
Ltac step Hf :=
  erewrite bind_return
    by (first [ apply platform_runs; cbn; exact Hf
              | apply removeChild_child; cbn;
                [ exact Hf
                | apply elem_of_app; right; apply list_elem_of_here ] ]).

(** Removing the appended link leaves the children that were there. *)
Lemma filter_appended (l : list nat) (x : nat) :
  x ∉ l -> List.filter (fun y => negb (Nat.eqb y x)) (l ++ [x]) = l.
Proof.
  induction l as [|y l IH]; intros Hx.
  - cbn. rewrite Nat.eqb_refl. reflexivity.
  - apply not_elem_of_cons in Hx as [Hne Hx]. cbn.
    destruct (Nat.eqb_spec y x) as [->|_]; [congruence|].
    cbn. rewrite (IH Hx). reflexivity.
Qed.

(** When no platform call fails, a delivery completes: the file is saved, the
    object URLs are those of before, and the body holds its former children
    without the link. *)
Lemma downloadFile_completes (fileBlob : Blob) (filename : string)
    (w : World) :
  (forall op, faults w op = false) ->
  exists w',
    downloadFile fileBlob filename w = (Return tt, w') /\
    object_urls w' = object_urls w /\
    downloads w' = downloads w ++ [(filename, fileBlob)] /\
    faults w' = faults w /\
    body w'
    = List.filter (fun x => negb (Nat.eqb x (fresh (dom (elements w)))))
                  (body w ++ [fresh (dom (elements w))]).
Proof.
  intros Hf. unfold downloadFile.
  unfold createObjectURL, createElement, setAttribute, appendChild.
  step (Hf CreateObjectURL). step (Hf CreateElement).
  step (Hf SetAttribute). step (Hf SetAttribute).
  step (Hf AppendChild). cbn [fst snd].
  erewrite bind_return.
  2:{ apply (click_downloads _ (fresh (dom (object_urls w))) filename fileBlob).
      - cbn. exact (Hf Click).
      - cbn. rewrite !lookup_alter_eq, lookup_insert_eq. reflexivity.
      - cbn. apply lookup_insert_eq. }
  step (Hf RemoveChild).
  unfold revokeObjectURL.
  rewrite platform_runs by (cbn; exact (Hf RevokeObjectURL)).
  eexists. split; [reflexivity|]. cbn.
  rewrite delete_insert_id by (apply not_elem_of_dom, is_fresh).
  repeat split.
Qed.

(** X10: the temporary link does not stay in the document: in a browser
    whose body holds only created elements, a delivery without failure leaves
    the children of the body as they were. *)
Theorem downloadFile_restores_body (fileBlob : Blob) (filename : string)
    (w : World) :
  (forall op, faults w op = false) ->
  (forall el, el ∈ body w -> el ∈ dom (elements w)) ->
  exists w',
    downloadFile fileBlob filename w = (Return tt, w') /\
    body w' = body w.
Proof.
  intros Hf Hbody.
  destruct (downloadFile_completes fileBlob filename w Hf)
    as (w' & Hrun & _ & _ & _ & Hb).
  exists w'. split; [exact Hrun|]. rewrite Hb.
  apply filter_appended. intros Hin.
  exact (is_fresh (dom (elements w)) (Hbody _ Hin)).
Qed.

Lemma downloadFile_restores_body_witness :
  exists w',
    downloadFile (mkBlob [StringPart "x"] "text/csv") "f.csv"
      (mkWorld ∅ {[ 0%nat := ∅ ]} [0%nat] [] (fun _ => false))
    = (Return tt, w') /\
    body w' = [0%nat].
Proof.
  apply (downloadFile_restores_body (mkBlob [StringPart "x"] "text/csv")
           "f.csv" (mkWorld ∅ {[ 0%nat := ∅ ]} [0%nat] [] (fun _ => false))).
  - intros op. reflexivity.
  - intros el Hin. apply list_elem_of_singleton in Hin. subst el.
    cbn. apply elem_of_dom. exists ∅. reflexivity.
Defined.

Ltac settle_frame :=
  cbn;
  repeat match goal with
         | |- _ /\ _ => split
         end;
  try (intros; discriminate);
  try (intros u Hu;
       rewrite ?lookup_delete_ne, ?lookup_insert_ne by congruence;
       reflexivity);
  auto.

(** X11: whatever fails, a delivery never touches an object URL other than
    its own, saves at most the one file it was given, and returns normally
    only after saving that file and revoking its URL. *)
Theorem downloadFile_frame (fileBlob : Blob) (filename : string) (w : World) :
  let result := downloadFile fileBlob filename w in
  let url := fresh (dom (object_urls w)) in
  (forall u, u <> url ->
             object_urls (snd result) !! u = object_urls w !! u) /\
  (downloads (snd result) = downloads w \/
   downloads (snd result) = downloads w ++ [(filename, fileBlob)]) /\
  (fst result = Return tt ->
   downloads (snd result) = downloads w ++ [(filename, fileBlob)] /\
   object_urls (snd result) = object_urls w).
Proof.
  cbv zeta. unfold downloadFile.
  unfold createObjectURL, createElement, setAttribute, appendChild.
  destruct (faults w CreateObjectURL) eqn:H1.
  { erewrite bind_throw by (apply platform_throws; exact H1). settle_frame. }
  step H1.
  destruct (faults w CreateElement) eqn:H2.
  { erewrite bind_throw by (apply platform_throws; exact H2). settle_frame. }
  step H2.
  destruct (faults w SetAttribute) eqn:H3.
  { erewrite bind_throw by (apply platform_throws; exact H3). settle_frame. }
  step H3. step H3.
  destruct (faults w AppendChild) eqn:H4.
  { erewrite bind_throw by (apply platform_throws; exact H4). settle_frame. }
  step H4. cbn [fst snd].
  destruct (faults w Click) eqn:H5.
  { erewrite bind_throw
      by (unfold click; apply platform_throws; cbn; exact H5).
    settle_frame. }
  erewrite bind_return.
  2:{ apply (click_downloads _ (fresh (dom (object_urls w))) filename fileBlob).
      - cbn. exact H5.
      - cbn. rewrite !lookup_alter_eq, lookup_insert_eq. reflexivity.
      - cbn. apply lookup_insert_eq. }
  destruct (faults w RemoveChild) eqn:H6.
  { erewrite bind_throw.
    2:{ unfold removeChild.
        rewrite bool_decide_eq_true_2
          by (cbn; apply elem_of_app; right; apply list_elem_of_here).
        apply platform_throws. cbn. exact H6. }
    settle_frame. }
  step H6. unfold revokeObjectURL.
  destruct (faults w RevokeObjectURL) eqn:H7.
  { rewrite platform_throws by (cbn; exact H7). settle_frame. }
  rewrite platform_runs by (cbn; exact H7). cbn.
  rewrite delete_insert_id by (apply not_elem_of_dom, is_fresh).
  auto.
Qed.

Lemma downloadFile_frame_witness :
  downloads
    (snd (downloadFile (mkBlob [StringPart "x"] "text/csv") "f.csv"
            (mkWorld ∅ ∅ [] [] (fun _ => false))))
  = [] ++ [("f.csv", mkBlob [StringPart "x"] "text/csv")] /\
  object_urls
    (snd (downloadFile (mkBlob [StringPart "x"] "text/csv") "f.csv"
            (mkWorld ∅ ∅ [] [] (fun _ => false))))
  = ∅.
Proof.
  apply (proj2 (proj2 (downloadFile_frame
                         (mkBlob [StringPart "x"] "text/csv") "f.csv"
                         (mkWorld ∅ ∅ [] [] (fun _ => false))))).
  vm_compute. reflexivity.
Defined.

End BrowserExtras.

(** ** Exporters *)

Module ExportersExtras.
Import Browser Exporters.

Lemma get_some_in {V : Type} (o : list (string * V)) (key : string) (v : V) :
  get o key = Some v -> (key, v) ∈ o.
Proof.
  unfold get. intros H.
  destruct (List.find _ o) as [[k v']|] eqn:E; [|discriminate].
  injection H as ->. apply find_some in E as [Hin Hk].
  apply String.eqb_eq in Hk. cbn [fst] in Hk. subst k.
  apply list_elem_of_In. exact Hin.
Qed.

Lemma get_none_absent {V : Type} (o : list (string * V)) (key : string) :
  get o key = None -> key ∉ o.*1.
Proof.
  unfold get. induction o as [|[k v] o IH]; intros H.
  - apply not_elem_of_nil.
  - cbn [List.find fst] in H. rewrite fmap_cons. cbn [fst].
    destruct (String.eqb k key) eqn:E; [discriminate|].
    apply String.eqb_neq in E. apply not_elem_of_cons.
    split; [congruence|exact (IH H)].
Qed.

Section Collaborators.
Context {Row Field Json AppState : Type}.
Variable CSV : string.
Variable formatCsv : list (option Row) -> list Field -> string.
Variable formatCsvNoFields :
  option (list (option Row)) -> completion string.
Variable save : State Row Field AppState -> gmap string (DocValue Json).
Variable getConfigToSave :
  State Row Field AppState -> gmap string (DocValue Json).
Variable mapInfo : State Row Field AppState -> Json.
Variable objectPart : gmap string (DocValue Json) -> BlobPart.

(** *** Dataset selection *)

(** X12: the selection is empty exactly when the collection is empty and the
    selected id is no property name inherited from [Object.prototype]; then
    [exportData] returns at once and the browser is left as it was. *)
Theorem exportData_nothing_selected
    (state : State Row Field AppState) (option : DataOption) :
  (selectedDatasets (datasets (visState state)) (selectedDataset option) = []
   <-> datasets (visState state) = [] /\
       (selectedDataset option ∉ Object_prototype_names)) /\
  (datasets (visState state) = [] ->
   selectedDataset option ∉ Object_prototype_names ->
   forall w,
     exportData CSV formatCsv formatCsvNoFields state option w
     = (Return tt, w)).
Proof.
  assert (Hempty : datasets (visState state) = [] ->
    selectedDataset option ∉ Object_prototype_names ->
    selectedDatasets (datasets (visState state)) (selectedDataset option)
    = []).
  { intros Hnil Hplain. unfold selectedDatasets, read. rewrite Hnil.
    cbn [get List.find fmap option_fmap option_map].
    rewrite bool_decide_eq_false_2 by exact Hplain. reflexivity. }
  split.
  - split; [|intros [Hnil Hplain]; exact (Hempty Hnil Hplain)].
    unfold selectedDatasets, read.
    destruct (get _ _) as [d|] eqn:E; [discriminate|].
    destruct (bool_decide_reflect
                (selectedDataset option ∈ Object_prototype_names))
      as [Hin|Hplain]; [discriminate|].
    unfold Object_values. intros Hnil.
    apply fmap_nil_inv, fmap_nil_inv in Hnil. split; assumption.
  - intros Hnil Hplain w. unfold exportData.
    rewrite (Hempty Hnil Hplain). reflexivity.
Qed.

(** X13: every selected value comes from the collection, but for one case:
    a selected value is a dataset stored in the collection under some key,
    or it is the value inherited under the selected id, which then is a name
    of [Object.prototype] and no key of the collection. *)
Theorem selectedDatasets_from_collection
    (datasets : list (string * Dataset Row Field)) (selectedDataset : string)
    (x : Selected Row Field) :
  x ∈ selectedDatasets datasets selectedDataset ->
  (exists key d, x = OwnDataset d /\ (key, d) ∈ datasets) \/
  (x = InheritedValue selectedDataset /\
   selectedDataset ∈ Object_prototype_names /\
   (selectedDataset ∉ datasets.*1)).
Proof.
  unfold selectedDatasets, read. destruct (get _ _) as [d|] eqn:E.
  - intros Hin. apply list_elem_of_singleton in Hin. subst x.
    left. exists selectedDataset, d.
    split; [reflexivity|exact (get_some_in _ _ _ E)].
  - destruct (bool_decide_reflect
                (selectedDataset ∈ Object_prototype_names))
      as [Hname|Hplain].
    + intros Hin. apply list_elem_of_singleton in Hin. subst x.
      right. split; [reflexivity|]. split; [exact Hname|].
      exact (get_none_absent _ _ E).
    + unfold Object_values. intros Hin.
      apply list_elem_of_fmap in Hin as (d & -> & Hin).
      apply list_elem_of_fmap in Hin as ([k d'] & -> & Hin).
      left. exists k, d'. split; [reflexivity|exact Hin].
Qed.

(** *** Rows handed to the serializer *)

(** X14: an index below zero or beyond the last row does not raise: the
    serializer gets [undefined] at that position. *)
Theorem toExport_index_out_of_range (selectedData : Dataset Row Field)
    (indices : list Z) (k : nat) (i : Z) :
  filteredIdxCPU selectedData = Some indices ->
  indices !! k = Some i ->
  (i < 0 \/ Z.of_nat (length (allData selectedData)) <= i)%Z ->
  toExport true selectedData !! k = Some None.
Proof.
  intros Hidx Hk Hrange. unfold toExport. rewrite Hidx. cbn.
  rewrite list_lookup_fmap, Hk. cbn. unfold at_index.
  destruct (Z.ltb_spec i 0) as [_|Hpos]; [reflexivity|].
  rewrite lookup_ge_None_2 by lia. reflexivity.
Qed.

(** X15: when the index list names every row in order, the filtered export
    hands over the same rows as the unfiltered one. *)
Theorem toExport_all_rows (selectedData : Dataset Row Field) :
  filteredIdxCPU selectedData
  = Some (seqZ 0 (Z.of_nat (length (allData selectedData)))) ->
  toExport true selectedData = toExport false selectedData.
Proof.
  intros Hidx. unfold toExport. rewrite Hidx. cbn.
  apply list_eq. intros k. rewrite !list_lookup_fmap.
  destruct (decide (k < length (allData selectedData))%nat) as [Hlt|Hge].
  - rewrite lookup_seqZ_lt by lia. cbn. unfold at_index.
    destruct (Z.ltb_spec (0 + Z.of_nat k) 0) as [Hneg|_]; [lia|].
    replace (Z.to_nat (0 + Z.of_nat k)) with k by lia.
    destruct (lookup_lt_is_Some_2 (allData selectedData) k Hlt) as [row ->].
    reflexivity.
  - rewrite lookup_seqZ_ge by lia.
    rewrite lookup_ge_None_2 by lia. reflexivity.
Qed.

(** *** Deliveries *)

(** A loop of deliveries that all complete saves one file per element, in
    order, and leaves no object URL behind. *)
Lemma forEach_delivers {A : Type} (f : A -> M unit) (item : A -> string * Blob)
    (arr : list A) :
  (forall x w, (forall op, faults w op = false) ->
     exists w', f x w = (Return tt, w') /\
                object_urls w' = object_urls w /\
                downloads w' = downloads w ++ [item x] /\
                faults w' = faults w) ->
  forall w, (forall op, faults w op = false) ->
    exists w', forEach f arr w = (Return tt, w') /\
               object_urls w' = object_urls w /\
               downloads w' = downloads w ++ (item <$> arr) /\
               faults w' = faults w.
Proof.
  intros Hf. induction arr as [|x arr IH]; intros w Hw.
  - exists w. cbn. rewrite app_nil_r. auto.
  - destruct (Hf x w Hw) as (w1 & Hrun & Hurls & Hdl & Hfaults).
    destruct (IH w1) as (w2 & Hrun2 & Hurls2 & Hdl2 & Hfaults2).
    { intros op. rewrite Hfaults. apply Hw. }
    exists w2. cbn [forEach].
    rewrite (BrowserProofs.bind_return _ _ _ _ _ Hrun).
    split; [exact Hrun2|]. split; [congruence|]. split; [|congruence].
    rewrite Hdl2, Hdl, fmap_cons, <- app_assoc. reflexivity.
Qed.

(** A loop stops at the first element whose delivery throws. *)
Lemma forEach_stops {A : Type} (f : A -> M unit) (done skipped : list A)
    (x : A) (e : error) :
  forall w w1,
    forEach f done w = (Return tt, w1) ->
    fst (f x w1) = Throw e ->
    forEach f (done ++ x :: skipped) w = f x w1.
Proof.
  induction done as [|y done IH]; intros w w1 Hdone Hx.
  - cbn in Hdone. injection Hdone as <-. cbn [app forEach].
    destruct (f x w) as [r w2] eqn:E. cbn in Hx. subst r.
    rewrite (BrowserProofs.bind_throw _ _ _ _ _ E). reflexivity.
  - cbn [app forEach] in *.
    destruct (f y w) as [[[]|e'] wy] eqn:E.
    + rewrite (BrowserProofs.bind_return _ _ _ _ _ E) in Hdone.
      rewrite (BrowserProofs.bind_return _ _ _ _ _ E).
      exact (IH _ _ Hdone Hx).
    + rewrite (BrowserProofs.bind_throw _ _ _ _ _ E) in Hdone. discriminate.
Qed.

(** On datasets the loop body is the export of a dataset. *)
Lemma forEach_own (dataType : string) (filtered : bool)
    (selected : list (Dataset Row Field)) (w : World) :
  forEach (exportSelected CSV formatCsv formatCsvNoFields dataType filtered)
          (OwnDataset <$> selected) w
  = forEach (exportDataset CSV formatCsv dataType filtered) selected w.
Proof.
  revert w. induction selected as [|d selected IH]; intros w; [reflexivity|].
  rewrite fmap_cons. cbn [forEach]. unfold mbind, M_bind.
  cbn [exportSelected].
  destruct (exportDataset _ _ _ _ d w) as [[[]|e] w1];
    [apply IH|reflexivity].
Qed.

(** X16: when the selection holds datasets only, every row handed to the
    serializer is defined, the data type is CSV and no platform call fails,
    [exportData] saves one file per selected dataset, in the order of the
    selection, named [kepler-gl_<label>.csv] and holding [formatCsv] of the
    dataset's rows and fields; afterwards no object URL it created is
    live. *)
Theorem exportData_csv_delivers
    (state : State Row Field AppState) (option : DataOption)
    (selected : list (Dataset Row Field)) (w : World) :
  selectedDatasets (datasets (visState state)) (selectedDataset option)
  = OwnDataset <$> selected ->
  Forall (fun d => Forall is_Some (toExport (filtered option) d)) selected ->
  dataType option = CSV ->
  (forall op, faults w op = false) ->
  exists w',
    exportData CSV formatCsv formatCsvNoFields state option w
    = (Return tt, w') /\
    object_urls w' = object_urls w /\
    downloads w'
    = downloads w ++
      ((fun d =>
          (DEFAULT_DATA_NAME +:+ "_" +:+ label d +:+ ".csv",
           mkBlob [StringPart (formatCsv (toExport (filtered option) d)
                                         (fields d))]
                  "text/csv"))
         <$> selected).
Proof.
  intros Hsel _ Htype Hw. unfold exportData. rewrite Hsel.
  destruct selected as [|d selected].
  - exists w. cbn. rewrite app_nil_r. auto.
  - rewrite fmap_cons. cbn [length Nat.eqb]. rewrite <- fmap_cons.
    rewrite forEach_own. clear Hsel.
    destruct (forEach_delivers
                (exportDataset CSV formatCsv (dataType option)
                               (filtered option))
                (fun d =>
                   (DEFAULT_DATA_NAME +:+ "_" +:+ label d +:+ ".csv",
                    mkBlob [StringPart (formatCsv
                                          (toExport (filtered option) d)
                                          (fields d))]
                           "text/csv"))
                (d :: selected)) with (w := w)
      as (w' & Hrun & Hurls & Hdl & _); [|exact Hw|].
    + intros x w0 Hw0. unfold exportDataset.
      rewrite Htype, String.eqb_refl.
      destruct (BrowserExtras.downloadFile_completes
                  (mkBlob [StringPart (formatCsv
                                         (toExport (filtered option) x)
                                         (fields x))]
                          "text/csv")
                  (DEFAULT_DATA_NAME +:+ "_" +:+ label x +:+ ".csv") w0 Hw0)
        as (w' & Hrun & Hurls & Hdl & Hfaults & _).
      exists w'. split; [exact Hrun|]. auto.
    + exists w'. auto.
Qed.

(** X17: [exportData] stops at the first selected value whose delivery
    throws: its outcome is that delivery's, and the values after it are not
    exported. *)
Theorem exportData_stops_at_failure
    (state : State Row Field AppState) (option : DataOption)
    (done skipped : list (Selected Row Field)) (x : Selected Row Field)
    (e : error) (w w1 : World) :
  selectedDatasets (datasets (visState state)) (selectedDataset option)
  = done ++ x :: skipped ->
  forEach (exportSelected CSV formatCsv formatCsvNoFields
             (dataType option) (filtered option))
          done w
  = (Return tt, w1) ->
  fst (exportSelected CSV formatCsv formatCsvNoFields
         (dataType option) (filtered option) x w1)
  = Throw e ->
  exportData CSV formatCsv formatCsvNoFields state option w
  = exportSelected CSV formatCsv formatCsvNoFields
      (dataType option) (filtered option) x w1.
Proof.
  intros Hsel Hdone Hd. unfold exportData. rewrite Hsel.
  rewrite length_app. cbn [length].
  replace (length done + S (length skipped))%nat
    with (S (length done + length skipped)) by lia.
  cbn [Nat.eqb]. exact (forEach_stops _ _ _ _ _ _ _ Hdone Hd).
Qed.

(** *** Documents *)

(** X18: the document handed to the HTML template is the saved map with two
    properties written over it: [mode] is the requested mode, and every
    property other than [mode] and [mapboxApiAccessToken] is the saved
    one. *)
Theorem exportHtml_data_overlay
    (state : State Row Field AppState) (options : HtmlOption Json) :
  exportHtml_data save state options !! "mode"
  = Some (JsonValue (mode options)) /\
  (forall key, key <> "mode" -> key <> "mapboxApiAccessToken" ->
     exportHtml_data save state options !! key = save state !! key).
Proof.
  unfold exportHtml_data. split.
  - apply lookup_insert_eq.
  - intros key Hmode Htoken.
    rewrite !lookup_insert_ne by congruence. reflexivity.
Qed.

(** X19: without a failing platform call, [exportJson] saves one file named
    [keplergl.json] of type [application/json]: the saved map with its data
    when [hasData] holds, the configuration alone otherwise; no object URL
    it created stays live. *)
Theorem exportJson_delivers
    (state : State Row Field AppState) (hasData : bool) (w : World) :
  (forall op, faults w op = false) ->
  exists w',
    exportJson save getConfigToSave objectPart state hasData w
    = (Return tt, w') /\
    object_urls w' = object_urls w /\
    downloads w'
    = downloads w ++
      [("keplergl.json",
        mkBlob [objectPart (if hasData then save state
                            else getConfigToSave state)]
               "application/json")].
Proof.
  intros Hw. unfold exportJson.
  destruct (BrowserExtras.downloadFile_completes
              (mkBlob [objectPart (if hasData then save state
                                   else getConfigToSave state)]
                      "application/json")
              DEFAULT_JSON_NAME w Hw)
    as (w' & Hrun & Hurls & Hdl & _).
  exists w'. auto.
Qed.

(** X20: with a well-formed preview URI ["data:" M ";base64," base64(B)] in
    the state and no failing platform call, [exportImage] saves the bytes [B]
    under [kepler-gl.png], in a blob whose type is what the [Blob]
    constructor makes of [M]; no object URL it created stays live. *)
Theorem exportImage_delivers
    (state : State Row Field AppState) (M : string) (B : list byte)
    (w : World) :
  imageDataUri (uiState state)
  = Some ("data:" +:+ M +:+ ";base64," +:+ DataURI.base64 B) ->
  DataURI.contains ":" M = false -> DataURI.contains ";" M = false ->
  DataURI.contains "," M = false ->
  (forall op, faults w op = false) ->
  exists w',
    exportImage state w = (Return tt, w') /\
    object_urls w' = object_urls w /\
    downloads w'
    = downloads w
      ++ [("kepler-gl.png", mkBlob [BufferPart B] (normalize_type M))].
Proof.
  intros Huri HMc HMs HMm Hw. unfold exportImage. rewrite Huri.
  change (String.eqb ("data:" +:+ M +:+ ";base64," +:+ DataURI.base64 B) "")
    with false.
  cbn [negb]. unfold lift.
  rewrite (DataURIExtras.canonical_uri_decodes M B HMc HMs HMm).
  erewrite BrowserProofs.bind_return by reflexivity.
  destruct (BrowserExtras.downloadFile_completes
              (mkBlob [BufferPart B] (normalize_type M))
              DEFAULT_IMAGE_NAME w Hw)
    as (w' & Hrun & Hurls & Hdl & _).
  exists w'. auto.
Qed.

(** X21: [exportImage] touches the browser only with a decodable preview:
    without a preview URI (absent or empty) it returns and changes nothing;
    with a URI that has no comma it throws [InvalidCharacterError] before any
    platform call. *)
Theorem exportImage_without_preview
    (state : State Row Field AppState) (w : World) :
  (imageDataUri (uiState state) = None \/
   imageDataUri (uiState state) = Some "" ->
   exportImage state w = (Return tt, w)) /\
  (forall uri, imageDataUri (uiState state) = Some uri -> uri <> "" ->
     DataURI.contains "," uri = false ->
     exportImage state w = (Throw InvalidCharacterError, w)).
Proof.
  unfold exportImage. split.
  - intros [->| ->]; reflexivity.
  - intros uri -> Hne Hcomma. apply String.eqb_neq in Hne. rewrite Hne.
    cbn [negb]. unfold lift, DataURI.dataURItoBlob.
    rewrite (DataURIProofs.split_without _ _ Hcomma). reflexivity.
Qed.

(** X22: [exportMap] returns the saved map and the map info with a [null]
    thumbnail when the state has no preview URI, and with the decoded blob
    (the bytes [B], the type the [Blob] constructor makes of [M]) when it has
    a well-formed one. *)
Theorem exportMap_bundle (state : State Row Field AppState) :
  (imageDataUri (uiState state) = None \/
   imageDataUri (uiState state) = Some "" ->
   exportMap save mapInfo state
   = Return (mkMapBundle (save state) (mapInfo state) None)) /\
  (forall M B,
     imageDataUri (uiState state)
     = Some ("data:" +:+ M +:+ ";base64," +:+ DataURI.base64 B) ->
     DataURI.contains ":" M = false -> DataURI.contains ";" M = false ->
     DataURI.contains "," M = false ->
     exportMap save mapInfo state
     = Return (mkMapBundle (save state) (mapInfo state)
                           (Some (mkBlob [BufferPart B]
                                         (normalize_type M))))).
Proof.
  unfold exportMap. split.
  - intros [->| ->]; reflexivity.
  - intros M B -> HMc HMs HMm.
    change (String.eqb ("data:" +:+ M +:+ ";base64," +:+ DataURI.base64 B) "")
      with false.
    cbn [negb].
    rewrite (DataURIExtras.canonical_uri_decodes M B HMc HMs HMm).
    reflexivity.
Qed.

(** X23: a preview URI without a comma makes [exportMap] throw
    [InvalidCharacterError]: no bundle is returned, although the map itself
    could be saved. *)
Theorem exportMap_malformed_preview
    (state : State Row Field AppState) (uri : string) :
  imageDataUri (uiState state) = Some uri -> uri <> "" ->
  DataURI.contains "," uri = false ->
  exportMap save mapInfo state = Throw InvalidCharacterError.
Proof.
  intros Huri Hne Hcomma. unfold exportMap. rewrite Huri.
  apply String.eqb_neq in Hne. rewrite Hne. cbn [negb].
  unfold DataURI.dataURItoBlob.
  rewrite (DataURIProofs.split_without _ _ Hcomma). reflexivity.
Qed.
End Collaborators.

Lemma exportData_nothing_selected_witness :
  exportData (Field := string) (AppState := unit) "csv"
    (fun (_ : list (option string)) _ => "") (fun _ => Throw TypeError)
    (mkState (mkVisState []) (mkUiState None) tt)
    (mkDataOption "missing" "csv" true)
    (mkWorld ∅ ∅ [] [] (fun _ => false))
  = (Return tt, mkWorld ∅ ∅ [] [] (fun _ => false)).
Proof.
  apply (proj2 (exportData_nothing_selected "csv" (fun _ _ => "")
                  (fun _ => Throw TypeError)
                  (mkState (mkVisState []) (mkUiState None) tt)
                  (mkDataOption "missing" "csv" true))).
  - reflexivity.
  - apply (bool_decide_eq_false_1 (_ ∈ _)). vm_compute. reflexivity.
Defined.

Lemma selectedDatasets_from_collection_witness :
  (exists key d,
     OwnDataset (mkDataset ["r1"] ["f"] "second" None) = OwnDataset d /\
     (key, d) ∈ [("a", mkDataset ["r0"] ["f"] "first" None);
                 ("b", mkDataset ["r1"] ["f"] "second" None)]) \/
  (OwnDataset (mkDataset ["r1"] ["f"] "second" None) = InheritedValue "b" /\
   "b" ∈ Object_prototype_names /\
   ("b" ∉ [("a", mkDataset ["r0"] ["f"] "first" None);
           ("b", mkDataset ["r1"] ["f"] "second" None)].*1)).
Proof.
  apply (selectedDatasets_from_collection
           [("a", mkDataset ["r0"] ["f"] "first" None);
            ("b", mkDataset ["r1"] ["f"] "second" None)] "b").
  apply list_elem_of_here.
Defined.

Lemma toExport_index_out_of_range_witness :
  toExport true (mkDataset ["r0"; "r1"] ["f"] "trips" (Some [5; (-1)]%Z))
    !! 1%nat
  = Some None.
Proof.
  apply (toExport_index_out_of_range
           (mkDataset ["r0"; "r1"] ["f"] "trips" (Some [5; (-1)]%Z))
           [5; (-1)]%Z 1 (-1)%Z); [reflexivity|reflexivity|].
  left. reflexivity.
Defined.

Lemma toExport_all_rows_witness :
  toExport true (mkDataset ["r0"; "r1"] ["f"] "trips" (Some [0; 1]%Z))
  = toExport false (mkDataset ["r0"; "r1"] ["f"] "trips" (Some [0; 1]%Z)).
Proof.
  apply (toExport_all_rows
           (mkDataset ["r0"; "r1"] ["f"] "trips" (Some [0; 1]%Z))).
  reflexivity.
Defined.

Lemma exportData_csv_delivers_witness :
  exists w',
    exportData (AppState := unit) "csv"
      (fun (_ : list (option string)) (_ : list string) => "rows")
      (fun _ => Throw TypeError)
      (mkState (mkVisState [("a", mkDataset ["r0"] ["f"] "first" None);
                            ("b", mkDataset ["r1"] ["f"] "second" None)])
               (mkUiState None) tt)
      (mkDataOption "" "csv" false)
      (mkWorld ∅ ∅ [] [] (fun _ => false))
    = (Return tt, w') /\
    object_urls w' = ∅ /\
    downloads w'
    = [("kepler-gl_first.csv", mkBlob [StringPart "rows"] "text/csv");
       ("kepler-gl_second.csv", mkBlob [StringPart "rows"] "text/csv")].
Proof.
  apply (exportData_csv_delivers "csv" (fun _ _ => "rows")
           (fun _ => Throw TypeError)
           (mkState (mkVisState [("a", mkDataset ["r0"] ["f"] "first" None);
                                 ("b", mkDataset ["r1"] ["f"] "second" None)])
                    (mkUiState None) tt)
           (mkDataOption "" "csv" false)
           [mkDataset ["r0"] ["f"] "first" None;
            mkDataset ["r1"] ["f"] "second" None]
           (mkWorld ∅ ∅ [] [] (fun _ => false))).
  - reflexivity.
  - repeat constructor; eexists; reflexivity.
  - reflexivity.
  - intros op. reflexivity.
Defined.

Lemma exportData_stops_at_failure_witness :
  exportData (AppState := unit) "csv"
    (fun (_ : list (option string)) (_ : list string) => "rows")
    (fun _ => Throw TypeError)
    (mkState (mkVisState [("a", mkDataset ["r0"] ["f"] "first" None);
                          ("b", mkDataset ["r1"] ["f"] "second" None)])
             (mkUiState None) tt)
    (mkDataOption "" "csv" false)
    (mkWorld ∅ ∅ [] []
       (fun op => match op with AppendChild => true | _ => false end))
  = exportDataset "csv" (fun _ _ => "rows") "csv" false
      (mkDataset ["r0"] ["f"] "first" None)
      (mkWorld ∅ ∅ [] []
         (fun op => match op with AppendChild => true | _ => false end)).
Proof.
  apply (exportData_stops_at_failure "csv" (fun _ _ => "rows")
           (fun _ => Throw TypeError)
           (mkState (mkVisState [("a", mkDataset ["r0"] ["f"] "first" None);
                                 ("b", mkDataset ["r1"] ["f"] "second" None)])
                    (mkUiState None) tt)
           (mkDataOption "" "csv" false)
           [] [OwnDataset (mkDataset ["r1"] ["f"] "second" None)]
           (OwnDataset (mkDataset ["r0"] ["f"] "first" None)) DOMError).
  - reflexivity.
  - reflexivity.
  - vm_compute. reflexivity.
Defined.

Lemma exportHtml_data_overlay_witness :
  exportHtml_data (Row := string) (Field := string) (AppState := unit)
      (fun _ => {[ "config" := JsonValue "saved" ]})
      (mkState (mkVisState []) (mkUiState None) tt)
      (mkHtmlOption TokenNull (TokenString "pk.fallback") "READ_ONLY")
    !! "config"
  = Some (JsonValue "saved").
Proof.
  etrans;
    [ apply (proj2 (exportHtml_data_overlay
                      (Row := string) (Field := string) (AppState := unit)
                      (fun _ => {[ "config" := JsonValue "saved" ]})
                      (mkState (mkVisState []) (mkUiState None) tt)
                      (mkHtmlOption TokenNull (TokenString "pk.fallback")
                                    "READ_ONLY")) "config");
      discriminate
    | reflexivity ].
Defined.

Lemma exportJson_delivers_witness :
  exists w',
    exportJson (Row := string) (Field := string) (Json := string)
      (AppState := unit)
      (fun _ => {[ "datasets" := JsonValue "rows" ]}) (fun _ => ∅)
      (fun _ => StringPart "[object Object]")
      (mkState (mkVisState []) (mkUiState None) tt) false
      (mkWorld ∅ ∅ [] [] (fun _ => false))
    = (Return tt, w') /\
    object_urls w' = ∅ /\
    downloads w'
    = [("keplergl.json",
        mkBlob [StringPart "[object Object]"] "application/json")].
Proof.
  apply (exportJson_delivers
           (Row := string) (Field := string) (Json := string)
           (AppState := unit)
           (fun _ => {[ "datasets" := JsonValue "rows" ]}) (fun _ => ∅)
           (fun _ => StringPart "[object Object]")
           (mkState (mkVisState []) (mkUiState None) tt) false
           (mkWorld ∅ ∅ [] [] (fun _ => false))).
  intros op. reflexivity.
Defined.

Lemma exportImage_delivers_witness :
  exists w',
    exportImage (Row := string) (Field := string) (AppState := unit)
      (mkState (mkVisState [])
         (mkUiState (Some ("data:" +:+ "image/png" +:+ ";base64,"
                           +:+ DataURI.base64 ["M"%byte; "a"%byte])))
         tt)
      (mkWorld ∅ ∅ [] [] (fun _ => false))
    = (Return tt, w') /\
    object_urls w' = ∅ /\
    downloads w'
    = [("kepler-gl.png",
        mkBlob [BufferPart ["M"%byte; "a"%byte]] "image/png")].
Proof.
  apply (exportImage_delivers
           (Row := string) (Field := string) (AppState := unit)
           (mkState (mkVisState [])
              (mkUiState (Some ("data:" +:+ "image/png" +:+ ";base64,"
                                +:+ DataURI.base64 ["M"%byte; "a"%byte])))
              tt)
           "image/png" ["M"%byte; "a"%byte]
           (mkWorld ∅ ∅ [] [] (fun _ => false))); reflexivity.
Defined.

Lemma exportImage_without_preview_witness :
  exportImage (Row := string) (Field := string) (AppState := unit)
    (mkState (mkVisState []) (mkUiState (Some "data:image/png;base64")) tt)
    (mkWorld ∅ ∅ [] [] (fun _ => false))
  = (Throw InvalidCharacterError, mkWorld ∅ ∅ [] [] (fun _ => false)).
Proof.
  apply (proj2 (exportImage_without_preview
                  (Row := string) (Field := string) (AppState := unit)
                  (mkState (mkVisState [])
                           (mkUiState (Some "data:image/png;base64")) tt)
                  (mkWorld ∅ ∅ [] [] (fun _ => false)))
               "data:image/png;base64");
    [reflexivity|discriminate|reflexivity].
Defined.

Lemma exportMap_bundle_witness :
  exportMap (Row := string) (Field := string) (AppState := unit)
    (fun _ => ∅) (fun _ => "info")
    (mkState (mkVisState [])
       (mkUiState (Some ("data:" +:+ "image/png" +:+ ";base64,"
                         +:+ DataURI.base64 ["M"%byte])))
       tt)
  = Return (mkMapBundle ∅ "info"
              (Some (mkBlob [BufferPart ["M"%byte]] "image/png"))).
Proof.
  apply (proj2 (exportMap_bundle
                  (Row := string) (Field := string) (AppState := unit)
                  (fun _ => ∅) (fun _ => "info")
                  (mkState (mkVisState [])
                     (mkUiState (Some ("data:" +:+ "image/png" +:+ ";base64,"
                                       +:+ DataURI.base64 ["M"%byte])))
                     tt))
               "image/png" ["M"%byte]); reflexivity.
Defined.

Lemma exportMap_malformed_preview_witness :
  exportMap (Row := string) (Field := string) (AppState := unit)
    (fun _ => ∅) (fun _ => "info")
    (mkState (mkVisState []) (mkUiState (Some "data:image/png;base64")) tt)
  = Throw InvalidCharacterError.
Proof.
  apply (exportMap_malformed_preview
           (Row := string) (Field := string) (AppState := unit)
           (fun _ => ∅) (fun _ => "info")
           (mkState (mkVisState [])
                    (mkUiState (Some "data:image/png;base64")) tt)
           "data:image/png;base64");
    [reflexivity|discriminate|reflexivity].
Defined.

End ExportersExtras.
